(** * mysqld_exporter: scrape orchestration and the replication-status probe

    A shallow embedding of [mysqld_exporter.go] (probe selection, deadline
    derivation, the request handler) and of [collector/slave_status.go]
    (dialect resolution, by-name column lookup, generic metrics, MariaDB
    GTID positions), followed by the properties proved about them.

    Conventions.
    - Go [float64] is the kernel's binary64 [float]; comparisons are the
      IEEE ones ([NaN] compares false with everything).
    - Go [string] is a byte string: [string] over [ascii].
    - A Go [(value, error)] pair keeps both components; [error] is [nil]
      exactly when the option is [None].
    - A channel of metrics is the list of metrics sent so far, oldest first. *)

From Stdlib Require Import Floats ZArith Ascii String List.
From stdpp Require Import base option list gmap strings.

Local Open Scope string_scope.
Local Open Scope list_scope.

Abbreviation float64 := float (only parsing).

(** ** Library functions the two files call *)

Module Go.

(** [strings.ToLower] on a byte: ['A'..'Z'] move to ['a'..'z']; every other
    byte, in particular one above 0x7f, stays (the column names of the status
    statements are ASCII, where this is what Go does). *)
Definition lowerByte (c : ascii) : ascii :=
  let n := nat_of_ascii c in
  if (65 <=? n)%nat && (n <=? 90)%nat then ascii_of_nat (n + 32) else c.

Fixpoint ToLower (s : string) : string :=
  match s with
  | EmptyString => EmptyString
  | String c rest => String (lowerByte c) (ToLower rest)
  end.

(** [strings.Split(s, sep)] for a one-byte separator: the pieces between
    the separators, in order; a string without separator is its only piece. *)
Fixpoint Split (s : string) (sep : ascii) : list string :=
  match s with
  | EmptyString => [EmptyString]
  | String c rest =>
      if Ascii.eqb c sep then EmptyString :: Split rest sep
      else match Split rest sep with
           | piece :: pieces => String c piece :: pieces
           | [] => [String c EmptyString]
           end
  end.

(** [strconv.ParseUint(s, 10, 64)]. *)
Inductive NumError := ErrSyntax | ErrRange.

Definition maxUint64 : Z := 18446744073709551615.
Definition cutoff : Z := maxUint64 / 10 + 1.

(** The digit of byte [c] in base 10; letters and everything else are
    syntax errors in that base. *)
Definition digit10 (c : ascii) : option Z :=
  let n := Z.of_nat (nat_of_ascii c) in
  if (48 <=? n)%Z && (n <=? 57)%Z then Some (n - 48)%Z else None.

Fixpoint parseUintLoop (s : string) (n : Z) : Z * option NumError :=
  match s with
  | EmptyString => (n, None)
  | String c rest =>
      match digit10 c with
      | None => (0%Z, Some ErrSyntax)
      | Some d =>
          if (cutoff <=? n)%Z then (maxUint64, Some ErrRange)
          else
            let n := (n * 10)%Z in
            let n1 := ((n + d) mod 2 ^ 64)%Z in
            if (n1 <? n)%Z || (maxUint64 <? n1)%Z then (maxUint64, Some ErrRange)
            else parseUintLoop rest n1
      end
  end.

Definition ParseUint (s : string) : Z * option NumError :=
  if bool_decide (s = "") then (0%Z, Some ErrSyntax) else parseUintLoop s 0.

(** [float64(n)] for [n : uint64]: round to nearest, ties to even. *)
Definition float64_of_uint64 (n : Z) : float64 :=
  SF2Prim (binary_normalize 53 1024 n 0 false).

(** [time.Duration(f)] for [f : float64], a conversion to [int64]: the
    fraction is cut off (towards zero); for a value that [int64] cannot
    hold, an infinity or not-a-number, the language leaves the result to
    the implementation, which is [None] here. *)
Definition Duration_of_float64 (f : float64) : option Z :=
  match Prim2SF f with
  | S754_zero _ => Some 0%Z
  | S754_finite negative m e =>
      let magnitude :=
        if (0 <=? e)%Z then (Z.pos m * 2 ^ e)%Z else (Z.pos m / 2 ^ (- e))%Z in
      let n := if negative then (- magnitude)%Z else magnitude in
      if (- 2 ^ 63 <=? n)%Z && (n <? 2 ^ 63)%Z then Some n else None
  | _ => None
  end.

(** [prometheus.BuildFQName]. *)
Definition BuildFQName (namespace subsystem name : string) : string :=
  if bool_decide (name = "") then ""
  else
    (if bool_decide (namespace <> "") then namespace +:+ "_" else "")
    +:+ (if bool_decide (subsystem <> "") then subsystem +:+ "_" else "")
    +:+ name.

End Go.

(** ** Package [collector]: [slave_status.go] *)

Module Collector.
Import Go.

(** [type Scraper interface { Name() string; Help() string; Version() float64; Scrape(...) error }].
    Selection only ever calls [Name]; the other getters are kept as data. *)
Record Scraper := mkScraper {
  Name : string;
  Help : string;
  Version : float64
}.

(** [ScrapeSlaveStatus{}] with its [Name], [Help] and [Version] (5.1). *)
Definition slaveStatus : string := "slave_status".

Definition ScrapeSlaveStatus : Scraper :=
  mkScraper slaveStatus "Collect from SHOW SLAVE STATUS" 0x1.4666666666666p+2%float.

(** *** Metrics *)

Inductive ValueType := CounterValue | GaugeValue | UntypedValue.

(** [prometheus.NewDesc(fqName, help, variableLabels, nil)] *)
Record Desc := NewDesc {
  fqName : string;
  help : string;
  variableLabels : list string
}.

(** [prometheus.MustNewConstMetric(desc, valueType, value, labelValues...)].
    The descriptor checks of the client library are not part of this file. *)
Record Metric := MustNewConstMetric {
  desc : Desc;
  valueType : ValueType;
  value : float64;
  labelValues : list string
}.

(** The value a metric carries for the label called [name]. *)
Fixpoint labelOf (names values : list string) (name : string) : option string :=
  match names, values with
  | n :: names, v :: values =>
      if bool_decide (n = name) then Some v else labelOf names values name
  | _, _ => None
  end.

Definition label (m : Metric) (name : string) : option string :=
  labelOf (variableLabels (desc m)) (labelValues m) name.

(** *** The connection *)

Abbreviation error := string (only parsing).

(** One result row as [Rows.Scan] finds it: the driver's values, or the
    error [Scan] reports instead. *)
Inductive scanned :=
| RowValues (values : list string)
| RowError (err : error).

(** [*sql.Rows]: what [Columns()] returns, and the rows [Next()] steps through. *)
Record Rows := mkRows {
  Columns : list string * option error;
  Data : list scanned
}.

(** A connection answers a statement with rows or with an error, and the
    answer may depend on the statements it was sent before. *)
Definition DB := list string -> string -> error + Rows.

(** The local variables [slaveStatusRows, err] together with the statements
    sent so far; [last = None] until the first assignment. *)
Record resolveState := mkResolve {
  sent : list string;
  last : option (error + Rows)
}.

(** [slaveStatusRows, err = db.QueryContext(ctx, query)] *)
Definition QueryContext (db : DB) (query : string) (st : resolveState) : resolveState :=
  {| sent := sent st ++ [query]; last := Some (db (sent st) query) |}.

(** *** Constants *)

Definition slaveStatusQueries : list string :=
  ["SHOW ALL SLAVES STATUS"; "SHOW SLAVE STATUS"; "SHOW REPLICA STATUS"].
Definition slaveStatusQuerySuffixes : list string :=
  [" NONBLOCKING"; " NOLOCK"; ""].

(** *** [columnIndex], [columnValue] *)

Fixpoint columnIndexFrom (idx : Z) (slaveCols : list string) (colName : string) : Z :=
  match slaveCols with
  | [] => (-1)%Z
  | col :: rest =>
      if bool_decide (col = colName) then idx
      else columnIndexFrom (idx + 1)%Z rest colName
  end.

Definition columnIndex (slaveCols : list string) (colName : string) : Z :=
  columnIndexFrom 0 slaveCols colName.

(** [None] is the run-time panic of indexing [scanArgs] past its end. *)
Definition columnValue (scanArgs slaveCols : list string) (colName : string)
  : option string :=
  let columnIndex := columnIndex slaveCols colName in
  if bool_decide (columnIndex = (-1)%Z) then Some ""
  else scanArgs !! Z.to_nat columnIndex.

(** How a call ends: it returns its [error], or it panics. *)
Inductive outcome :=
| Return (err : option error)
| Panic.

(** *** [ScrapeSlaveStatus.Scrape]: the search for the statement *)

(** The inner loop, over the suffixes of a statement that failed ... *)
Fixpoint suffixLoop (db : DB) (query : string) (suffixes : list string)
    (st : resolveState) : resolveState :=
  match suffixes with
  | [] => st
  | suffix :: rest =>
      let st := QueryContext db (query +:+ suffix) st in
      match last st with
      | Some (inr _) => st                             (* err == nil: break *)
      | _ => suffixLoop db query rest st
      end
  end.

(** ... and the outer loop over the statements. *)
Fixpoint queryLoop (db : DB) (queries : list string) (st : resolveState)
  : resolveState :=
  match queries with
  | [] => st
  | query :: rest =>
      let st := QueryContext db query st in
      match last st with
      | Some (inr _) => st                             (* else: break *)
      | _ => queryLoop db rest (suffixLoop db query slaveStatusQuerySuffixes st)
      end
  end.

(** Not from the source, for comparison with the two loops: the statements
    in the declared order, each statement, then that statement with each
    suffix, then the next statement. *)
Definition declaredOrder (queries suffixes : list string) : list string :=
  queries ≫= fun query => query :: ((fun suffix => query +:+ suffix) <$> suffixes).

(** Not from the source, an invariant of the two loops: the local
    variables hold the answer to the statement sent last. *)
Definition answersLast (db : DB) (st : resolveState) : Prop :=
  exists hist query, sent st = hist ++ [query] /\ last st = Some (db hist query).

(** *** [parseMariaDBGtid] *)

Section Probe.
(** [namespace], a constant of the package declared in another file. *)
Variable namespace : string.
(** [parseStatus] of the package, declared in another file: the number a
    raw status value stands for, and whether it stands for one. *)
Variable parseStatus : string -> float64 * bool.

Definition gtidMetric (name : string) (sequence_num : Z)
    (masterHost masterUUID channelName connectionName domainID serverID : string)
  : Metric :=
  MustNewConstMetric
    (NewDesc
       (BuildFQName namespace slaveStatus (ToLower name))
       (name +:+ " metric from SHOW SLAVE STATUS.")
       ["master_host"; "master_uuid"; "channel_name"; "connection_name";
        "domain_id"; "server_id"])
    GaugeValue
    (float64_of_uint64 sequence_num)
    [masterHost; masterUUID; channelName; connectionName; domainID; serverID].

(** The body of [for _, gtid := range strings.Split(value, ",")]. *)
Definition gtidStep (name masterHost masterUUID channelName connectionName : string)
    (ch : list Metric) (gtid : string) : list Metric :=
  let parts := Split gtid "-" in
  match parts with
  | [domainID; serverID; part2] =>
      match ParseUint part2 with
      | (_, Some _) => ch                              (* continue *)
      | (sequence_num, None) =>
          ch ++ [gtidMetric name sequence_num masterHost masterUUID
                   channelName connectionName domainID serverID]
      end
  | _ => ch                                            (* len(parts) != 3: continue *)
  end.

Definition parseMariaDBGtid (ch : list Metric) (name value : string)
    (masterHost masterUUID channelName connectionName : string) : list Metric :=
  if bool_decide (value = "") then ch
  else foldl (gtidStep name masterHost masterUUID channelName connectionName)
             ch (Split value ",").

(** *** [ScrapeSlaveStatus.Scrape]: one row *)

Definition genericMetric (col : string) (value : float64)
    (masterHost masterUUID channelName connectionName : string) : Metric :=
  MustNewConstMetric
    (NewDesc
       (BuildFQName namespace slaveStatus (ToLower col))
       "Generic metric from SHOW SLAVE STATUS."
       ["master_host"; "master_uuid"; "channel_name"; "connection_name"])
    UntypedValue
    value
    [masterHost; masterUUID; channelName; connectionName].

(** [for i, col := range slaveCols], from index [i] on; [None] is the
    panic of [scanArgs[i]] past the end. *)
Fixpoint genericLoop (i : nat) (cols scanArgs : list string)
    (masterHost masterUUID channelName connectionName : string)
    (ch : list Metric) : option (list Metric) :=
  match cols with
  | [] => Some ch
  | col :: rest =>
      raw ← scanArgs !! i;
      let ch :=
        match parseStatus raw with
        | (value, true) =>
            ch ++ [genericMetric col value masterHost masterUUID channelName connectionName]
        | (_, false) => ch
        end in
      genericLoop (S i) rest scanArgs masterHost masterUUID channelName connectionName ch
  end.

(** The four labels every metric of a row carries. *)
Definition rowLabels (scanArgs slaveCols : list string)
  : option (string * string * string * string) :=
  masterUUID ← columnValue scanArgs slaveCols "Master_UUID";
  masterUUID ← (if bool_decide (masterUUID = "")
                then columnValue scanArgs slaveCols "Source_UUID"
                else Some masterUUID);
  masterHost ← columnValue scanArgs slaveCols "Master_Host";
  masterHost ← (if bool_decide (masterHost = "")
                then columnValue scanArgs slaveCols "Source_Host"
                else Some masterHost);
  channelName ← columnValue scanArgs slaveCols "Channel_Name";
  connectionName ← columnValue scanArgs slaveCols "Connection_name";
  Some (masterHost, masterUUID, channelName, connectionName).

(** The body of [for slaveStatusRows.Next()] after a successful [Scan]. *)
Definition scrapeRow (scanArgs slaveCols : list string) (ch : list Metric)
  : option (list Metric) :=
  '(masterHost, masterUUID, channelName, connectionName) ← rowLabels scanArgs slaveCols;
  ch ← genericLoop 0 slaveCols scanArgs masterHost masterUUID channelName connectionName ch;
  gtidIO ← columnValue scanArgs slaveCols "Gtid_IO_Pos";
  let ch := parseMariaDBGtid ch "Gtid_IO_Pos" gtidIO
              masterHost masterUUID channelName connectionName in
  gtidSlave ← columnValue scanArgs slaveCols "Gtid_Slave_Pos";
  Some (parseMariaDBGtid ch "Gtid_Slave_Pos" gtidSlave
          masterHost masterUUID channelName connectionName).

(** [slaveStatusRows.Scan(scanArgs...)] into [n] fresh [*sql.RawBytes];
    [database/sql] refuses a row that has not exactly [n] values. *)
Definition Scan (row : scanned) (n : nat) : error + list string :=
  match row with
  | RowError err => inl err
  | RowValues values =>
      if bool_decide (length values = n) then inr values
      else inl "sql: expected destination arguments in Scan"
  end.

Fixpoint rowsLoop (slaveCols : list string) (data : list scanned)
    (ch : list Metric) : outcome * list Metric :=
  match data with
  | [] => (Return None, ch)
  | row :: rest =>
      match Scan row (length slaveCols) with
      | inl err => (Return (Some err), ch)
      | inr scanArgs =>
          match scrapeRow scanArgs slaveCols ch with
          | None => (Panic, ch)
          | Some ch => rowsLoop slaveCols rest ch
          end
      end
  end.

(** *** [ScrapeSlaveStatus.Scrape]: the whole probe *)

(** On a connection that was sent [sent0] before: how
    it ends, the channel afterwards, and every statement sent. *)
Definition Scrape (db : DB) (sent0 : list string) (ch : list Metric)
  : outcome * list Metric * list string :=
  let st := queryLoop db slaveStatusQueries (mkResolve sent0 None) in
  match last st with
  | Some (inl err) => (Return (Some err), ch, sent st)
  | None => (Panic, ch, sent st)                       (* nil [*sql.Rows] *)
  | Some (inr slaveStatusRows) =>
      match Columns slaveStatusRows with
      | (_, Some err) => (Return (Some err), ch, sent st)
      | (slaveCols, None) =>
          let '(out, ch) := rowsLoop slaveCols (Data slaveStatusRows) ch in
          (out, ch, sent st)
      end
  end.
End Probe.

(** *** What a row is expected to emit

    The definitions of this subsection are not taken from the source.
    They say, in the words of the specification, how a row is read by
    column name and what it is expected to put on the channel; the
    theorems below compare them with [columnValue], [rowLabels] and
    [scrapeRow]. *)

(** A result row as the pairs of column name and raw value, and its view
    as a map from name to value; of two columns of one name the map keeps
    the first. *)
Definition rowMap (row : list (string * string)) : gmap string string :=
  list_to_map row.

(** The value of column [first] when the row has it with a non-empty
    value, otherwise the value of column [second], otherwise [""]. *)
Definition preferred (row : list (string * string)) (first second : string) : string :=
  let otherwise := default "" (rowMap row !! second) in
  match rowMap row !! first with
  | Some v => if bool_decide (v = "") then otherwise else v
  | None => otherwise
  end.

(** The column names the body of the row loop reads by name, in the
    order of the calls of [columnValue]. *)
Definition namesRead : list string :=
  ["Master_UUID"; "Source_UUID"; "Master_Host"; "Source_Host";
   "Channel_Name"; "Connection_name"; "Gtid_IO_Pos"; "Gtid_Slave_Pos"].

Definition genericHelp : string := "Generic metric from SHOW SLAVE STATUS.".

(** The value of column [colName], [""] when the row has no such column. *)
Definition field (row : list (string * string)) (colName : string) : string :=
  default "" (rowMap row !! colName).

Section RowMetrics.
Variable namespace : string.
Variable parseStatus : string -> float64 * bool.
Implicit Types (row : list (string * string)).

(** What one column adds to the channel in the loop over the columns. *)
Definition genericOf (masterHost masterUUID channelName connectionName : string)
    (column : string * string) : list Metric :=
  match parseStatus column.2 with
  | (value, true) =>
      [genericMetric namespace column.1 value masterHost masterUUID channelName connectionName]
  | (_, false) => []
  end.

(** What the list of GTID positions [value] of column [name] adds. *)
Definition gtidOf (name value h u c n : string) : list Metric :=
  parseMariaDBGtid namespace [] name value h u c n.

(** Everything one row adds to the channel. *)
Definition rowMetrics row : list Metric :=
  let h := preferred row "Master_Host" "Source_Host" in
  let u := preferred row "Master_UUID" "Source_UUID" in
  let c := field row "Channel_Name" in
  let n := field row "Connection_name" in
  (row ≫= genericOf h u c n)
  ++ gtidOf "Gtid_IO_Pos" (field row "Gtid_IO_Pos") h u c n
  ++ gtidOf "Gtid_Slave_Pos" (field row "Gtid_Slave_Pos") h u c n.

End RowMetrics.

(** Whether byte [c] occurs in [s]. *)
Fixpoint hasByte (c : ascii) (s : string) : bool :=
  match s with
  | EmptyString => false
  | String c' rest => Ascii.eqb c' c || hasByte c rest
  end.

(** *** Sample inputs *)

(** A stand-in for [parseStatus] that knows a handful of raw values. *)
Definition sampleParseStatus (raw : string) : float64 * bool :=
  if bool_decide (raw = "0") then (0%float, true)
  else if bool_decide (raw = "1") then (1%float, true)
  else if bool_decide (raw = "3306") then (3306%float, true)
  else if bool_decide (raw = "Yes") then (1%float, true)
  else if bool_decide (raw = "No") then (0%float, true)
  else (0%float, false).

(** A server on which the plain [SHOW SLAVE STATUS] fails (it waits for a
    lock) while the non-blocking form answers, and which knows neither of
    the other two statements. *)
Definition lockedRows : Rows :=
  mkRows (["Master_Host"; "Master_Port"; "Slave_IO_Running"], None)
         [RowValues ["db1"; "3306"; "Yes"]].

Definition lockedDB : DB := fun _ query =>
  if bool_decide (query = "SHOW SLAVE STATUS NONBLOCKING") then inr lockedRows
  else if bool_decide (query = "SHOW SLAVE STATUS") then inl "lock wait timeout"
  else inl "syntax error".

(** A server that knows only the third statement. *)
Definition replicaDB : DB := fun _ query =>
  if bool_decide (query = "SHOW REPLICA STATUS") then inr lockedRows
  else inl "syntax error".

(** ** Package [collector]: the probe of [information_schema.tables] *)

(** The two statements of the probe: [dbListQuery], and [tableSchemaQuery]
    with the database bound to its placeholder. *)
Inductive statement :=
| DbListQuery
| TableSchemaQuery (database : string).

(** What [Rows.Scan] makes of a row: the destinations filled, or its error. *)
Inductive scan (A : Type) :=
| Scanned (a : A)
| ScanFailed (err : error).
Arguments Scanned {A} a.
Arguments ScanFailed {A} err.

(** The eleven destinations of the scan of a table row; the [uint64]
    ones are numbers below [2 ^ 64]. *)
Record tableRow := mkTableRow {
  tableSchema : string;
  tableName : string;
  tableType : string;
  engine : string;
  version : Z;
  rowFormat : string;
  tableRows : Z;
  dataLength : Z;
  indexLength : Z;
  dataFree : Z;
  createOptions : string
}.

(** The connection as this probe sees it: the answer to each statement,
    which may depend on the statements sent before. *)
Record InfoSchemaDB := mkInfoSchemaDB {
  queryDbList : list statement -> error + list (scan string);
  queryTables : list statement -> string -> error + list (scan tableRow)
}.

Section TableSchema.
(** [namespace] and [informationSchema], constants of the package declared
    in other files. *)
Variable namespace : string.
Variable informationSchema : string.

(** [ScrapeTableSchema{}.Name()] *)
Definition ScrapeTableSchema_Name : string := informationSchema +:+ ".tables".

Definition infoSchemaTablesVersionDesc : Desc :=
  NewDesc (BuildFQName namespace informationSchema "table_version")
          "The version number of the table's .frm file"
          ["schema"; "table"; "type"; "engine"; "row_format"; "create_options"].

Definition infoSchemaTablesRowsDesc : Desc :=
  NewDesc (BuildFQName namespace informationSchema "table_rows")
          "The estimated number of rows in the table from information_schema.tables"
          ["schema"; "table"].

Definition infoSchemaTablesSizeDesc : Desc :=
  NewDesc (BuildFQName namespace informationSchema "table_size")
          "The size of the table components from information_schema.tables"
          ["schema"; "table"; "component"].

(** The five sends of the body of [for tableSchemaRows.Next()]. *)
Definition tableMetrics (t : tableRow) : list Metric :=
  [MustNewConstMetric infoSchemaTablesVersionDesc GaugeValue
     (float64_of_uint64 (version t))
     [tableSchema t; tableName t; tableType t; engine t; rowFormat t; createOptions t];
   MustNewConstMetric infoSchemaTablesRowsDesc GaugeValue
     (float64_of_uint64 (tableRows t)) [tableSchema t; tableName t];
   MustNewConstMetric infoSchemaTablesSizeDesc GaugeValue
     (float64_of_uint64 (dataLength t)) [tableSchema t; tableName t; "data_length"];
   MustNewConstMetric infoSchemaTablesSizeDesc GaugeValue
     (float64_of_uint64 (indexLength t)) [tableSchema t; tableName t; "index_length"];
   MustNewConstMetric infoSchemaTablesSizeDesc GaugeValue
     (float64_of_uint64 (dataFree t)) [tableSchema t; tableName t; "data_free"]].

(** [for dbListRows.Next()]: the databases read so far, or the error of a scan. *)
Fixpoint dbListLoop (rows : list (scan string)) (dbList : list string)
  : error + list string :=
  match rows with
  | [] => inr dbList
  | ScanFailed err :: _ => inl err
  | Scanned database :: rest => dbListLoop rest (dbList ++ [database])
  end.

(** [for tableSchemaRows.Next()] *)
Fixpoint tableRowsLoop (rows : list (scan tableRow)) (ch : list Metric)
  : option error * list Metric :=
  match rows with
  | [] => (None, ch)
  | ScanFailed err :: _ => (Some err, ch)
  | Scanned t :: rest => tableRowsLoop rest (ch ++ tableMetrics t)
  end.

(** [for _, database := range dbList]: the error returned if any, the
    channel and the statements sent. *)
Fixpoint databasesLoop (db : InfoSchemaDB) (dbList : list string)
    (sent : list statement) (ch : list Metric)
  : option error * list Metric * list statement :=
  match dbList with
  | [] => (None, ch, sent)
  | database :: rest =>
      let answer := queryTables db sent database in
      let sent := sent ++ [TableSchemaQuery database] in
      match answer with
      | inl err => (Some err, ch, sent)
      | inr tableSchemaRows =>
          match tableRowsLoop tableSchemaRows ch with
          | (Some err, ch) => (Some err, ch, sent)
          | (None, ch) => databasesLoop db rest sent ch
          end
      end
  end.

(** [ScrapeTableSchema{}.Scrape], with the value of the flag
    [collect.info_schema.tables.databases]. *)
Definition ScrapeTableSchema_Scrape (tableSchemaDatabases : string)
    (db : InfoSchemaDB) (sent : list statement) (ch : list Metric)
  : option error * list Metric * list statement :=
  if bool_decide (tableSchemaDatabases = "*") then
    let answer := queryDbList db sent in
    let sent := sent ++ [DbListQuery] in
    match answer with
    | inl err => (Some err, ch, sent)
    | inr dbListRows =>
        match dbListLoop dbListRows [] with
        | inl err => (Some err, ch, sent)
        | inr dbList => databasesLoop db dbList sent ch
        end
    end
  else databasesLoop db (Split tableSchemaDatabases ",") sent ch.
End TableSchema.

(** Not from the source, for comparison with the loops of the probe: the
    rows of an answer up to the first one that cannot be scanned (none for
    a statement that failed), and the rows so read from the answers to the
    table queries of the databases [queried], sent one after the other on
    a connection that was sent [sent] before. *)
Fixpoint scannedPrefix {A : Type} (data : list (scan A)) : list A :=
  match data with
  | Scanned a :: rest => a :: scannedPrefix rest
  | _ => []
  end.

Definition rowsAnswered (answer : error + list (scan tableRow)) : list tableRow :=
  match answer with
  | inl _ => []
  | inr data => scannedPrefix data
  end.

Fixpoint rowsOf (db : InfoSchemaDB) (queried : list string) (sent : list statement)
  : list tableRow :=
  match queried with
  | [] => []
  | database :: rest =>
      rowsAnswered (queryTables db sent database)
      ++ rowsOf db rest (sent ++ [TableSchemaQuery database])
  end.

(** A server with two schemas, one table in the first and two in the second. *)
Definition sampleTable (schema name : string) (rows : Z) : tableRow :=
  mkTableRow schema name "BASE TABLE" "InnoDB" 10 "Dynamic" rows 16384 0 0 "".

Definition sampleInfoSchemaDB : InfoSchemaDB :=
  mkInfoSchemaDB
    (fun _ => inr [Scanned "shop"; Scanned "blog"])
    (fun _ database =>
       if bool_decide (database = "shop") then inr [Scanned (sampleTable "shop" "orders" 42)]
       else if bool_decide (database = "blog")
       then inr [Scanned (sampleTable "blog" "posts" 7);
                 Scanned (sampleTable "blog" "tags" 3)]
       else inr []).

(** The tables of that server, by schema. *)
Definition sampleTables (database : string) : list tableRow :=
  if bool_decide (database = "shop") then [sampleTable "shop" "orders" 42]
  else if bool_decide (database = "blog")
  then [sampleTable "blog" "posts" 7; sampleTable "blog" "tags" 3]
  else [].

(** A server that loses the connection while the tables of its second
    schema are read, and on which the list of databases cannot be read
    to its end. *)
Definition brokenInfoSchemaDB : InfoSchemaDB :=
  mkInfoSchemaDB
    (fun _ => inr [Scanned "shop"; ScanFailed "bad row"; Scanned "blog"])
    (fun _ database =>
       if bool_decide (database = "shop") then inr [Scanned (sampleTable "shop" "orders" 42)]
       else inr [Scanned (sampleTable "blog" "posts" 7); ScanFailed "connection lost";
                 Scanned (sampleTable "blog" "tags" 3)]).

(** A server that lists three schemas and loses the connection while the
    tables of the second are read. *)
Definition lossyInfoSchemaDB : InfoSchemaDB :=
  mkInfoSchemaDB
    (fun _ => inr [Scanned "shop"; Scanned "blog"; Scanned "wiki"])
    (fun _ database =>
       if bool_decide (database = "shop") then inr [Scanned (sampleTable "shop" "orders" 42)]
       else inr [Scanned (sampleTable "blog" "posts" 7); ScanFailed "connection lost";
                 Scanned (sampleTable "blog" "tags" 3)]).

(** A connection that refuses every statement of the replication probe. *)
Definition refusingDB : DB := fun _ _ => inl "access denied".

End Collector.

(** ** Package [main]: [mysqld_exporter.go] *)

Module Exporter.
Import Collector.

(** *** [filterScrapers] *)

(** [filters := make(map[string]bool); for _, param := range collectParams { filters[param] = true }] *)
Definition mkFilters (collectParams : list string) : gmap string bool :=
  foldl (fun (filters : gmap string bool) param => <[param := true]> filters) ∅ collectParams.

(** [filters[name]]: a missing key reads as the zero value [false]. *)
Definition filtersGet (filters : gmap string bool) (name : string) : bool :=
  default false (filters !! name).

Definition filterScrapers (scrapers : list Scraper) (collectParams : list string)
  : list Scraper :=
  let filteredScrapers :=
    if bool_decide (0 < length collectParams)%nat then
      let filters := mkFilters collectParams in
      foldl (fun filteredScrapers scraper =>
               if filtersGet filters (Name scraper)
               then filteredScrapers ++ [scraper]
               else filteredScrapers)
            [] scrapers
    else [] in
  if bool_decide (length filteredScrapers = 0%nat) then scrapers
  else filteredScrapers.

(** Not from the source, for comparison with [filterScrapers]: the probes
    of the registry list that the inclusion list names, in the order of
    the registry list. *)
Definition selected (collectParams : list string) (scrapers : list Scraper)
  : list Scraper :=
  filter (fun s => Name s ∈ collectParams) scrapers.

(** *** Requests *)

(** [context.Context]: the context the server gave the request, or a
    child made by [context.WithTimeout] with a [time.Duration], a number
    of nanoseconds ([None] where the conversion that made it is left to
    the implementation). *)
Inductive Context :=
| RequestContext (id : nat)
| WithTimeout (parent : Context) (timeout : option Z).

(** [http.Header] and [url.Values] are both [map[string][]string]. *)
Record Request := mkRequest {
  Header : gmap string (list string);
  Query : gmap string (list string);
  ReqContext : Context
}.

(** [Header.Get] / [Values.Get]: first value under the key, [""] when there is none. *)
Definition mapGet (m : gmap string (list string)) (key : string) : string :=
  match m !! key with
  | Some (v :: _) => v
  | _ => ""
  end.

(** [Values.Has] *)
Definition mapHas (m : gmap string (list string)) (key : string) : bool :=
  bool_decide (is_Some (m !! key)).

(** [q["collect[]"]]: the whole slice, [nil] when the key is missing. *)
Definition mapIndex (m : gmap string (list string)) (key : string) : list string :=
  default [] (m !! key).

(** *** [getScrapeTimeoutSeconds] *)

(** The three [fmt.Errorf] values the function can return, by format string. *)
Inductive timeoutError :=
| ErrParseTimeout (cause : string)
    (** ["failed to parse timeout from Prometheus header: %v"] *)
| ErrInvalidTimeout (timeoutSeconds : float64)
    (** ["timeout value from Prometheus header is invalid: %f"] *)
| ErrTimeoutTooTight (offset timeoutSeconds : float64)
    (** ["timeout offset (%f) should be lower than prometheus scrape timeout (%f)"] *).

Definition timeoutHeader : string := "X-Prometheus-Scrape-Timeout-Seconds".

Section Deriver.
(** [strconv.ParseFloat(v, 64)]: the parsed value and the error, if any. *)
Variable ParseFloat : string -> float64 * option string.

Definition getScrapeTimeoutSeconds (r : Request) (offset : float64)
  : float64 * option timeoutError :=
  let v := mapGet (Header r) timeoutHeader in
  let parsed : float64 * option string :=
    if bool_decide (v <> "") then ParseFloat v else (0%float, None) in
  match parsed with
  | (_, Some err) => (0%float, Some (ErrParseTimeout err))
  | (timeoutSeconds, None) =>
      if (timeoutSeconds =? 0)%float then (0%float, None)
      else if (timeoutSeconds <? 0)%float then
        (0%float, Some (ErrInvalidTimeout timeoutSeconds))
      else if (timeoutSeconds <=? offset)%float then
        (* offset >= timeoutSeconds *)
        (0%float, Some (ErrTimeoutTooTight offset timeoutSeconds))
      else ((timeoutSeconds - offset)%float, None)
  end.
End Deriver.

(** *** [newHandler] *)

(** What the handler hands to the logger: message and attached error. *)
Inductive logError :=
| LogNoClientSection
    (** ["Failed to parse section [client] from config file"] *)
| LogFormDSN (err : string)
    (** ["Failed to form dsn from section [client]"] *)
| LogTimeout (err : timeoutError)
    (** ["Error getting timeout from Prometheus header"] *).

(** The configuration handler [c]: whether [cfg.Sections["client"]] exists,
    and [FormDSN] of that section (of the zero section when it does not). *)
Record Config := mkConfig {
  hasClient : bool;
  FormDSN : string -> string * option string
}.

(** Everything the handler does that is visible outside it: the lines it
    logs, the collector it registers ([collector.New(ctx, dsn,
    filteredScrapers, logger)]) and the request it passes on to
    [promhttp]'s handler, which alone writes the response. *)
Record Served := mkServed {
  logged : list logError;
  collectorCtx : Context;
  collectorDSN : string;
  collectorScrapers : list Scraper;
  servedRequest : Request
}.

(** [float64(time.Second)] *)
Definition second : float64 := 1000000000%float.

Section Handler.
Variable ParseFloat : string -> float64 * option string.
Variable c : Config.
Variable timeoutOffset : float64.

Definition newHandler (scrapers : list Scraper) (r : Request) : Served :=
  let q := Query r in
  let target := if mapHas q "target" then mapGet q "target" else "" in
  let log1 := if hasClient c then [] else [LogNoClientSection] in
  let '(dsn, err) := FormDSN c target in
  let log2 := match err with Some e => [LogFormDSN e] | None => [] end in
  let collect := mapIndex q "collect[]" in
  let ctx := ReqContext r in
  let '(timeoutSeconds, err) := getScrapeTimeoutSeconds ParseFloat r timeoutOffset in
  let log3 := match err with Some e => [LogTimeout e] | None => [] end in
  let '(ctx, r) :=
    if (0 <? timeoutSeconds)%float then
      let ctx := WithTimeout ctx (Go.Duration_of_float64 (timeoutSeconds * second)%float) in
      (ctx, mkRequest (Header r) (Query r) ctx)
    else (ctx, r) in
  let filteredScrapers := filterScrapers scrapers collect in
  {| logged := log1 ++ log2 ++ log3;
     collectorCtx := ctx;
     collectorDSN := dsn;
     collectorScrapers := filteredScrapers;
     servedRequest := r |}.
End Handler.

(** Not from the source, for comparison with [getScrapeTimeoutSeconds]
    and [newHandler]: the three ways the timeout header of a request is
    invalid, each with the error expected for it. *)
Inductive invalidTimeout (ParseFloat : string -> float64 * option string)
    (offset : float64) (r : Request) : timeoutError -> Prop :=
| TimeoutUnparsable v t cause :
    mapGet (Header r) timeoutHeader = v -> v <> "" ->
    ParseFloat v = (t, Some cause) ->
    invalidTimeout ParseFloat offset r (ErrParseTimeout cause)
| TimeoutNegative v t :
    mapGet (Header r) timeoutHeader = v -> v <> "" ->
    ParseFloat v = (t, None) -> (t <? 0)%float = true ->
    invalidTimeout ParseFloat offset r (ErrInvalidTimeout t)
| TimeoutTooTight v t :
    mapGet (Header r) timeoutHeader = v -> v <> "" ->
    ParseFloat v = (t, None) -> (0 <? t)%float = true -> (t <=? offset)%float = true ->
    invalidTimeout ParseFloat offset r (ErrTimeoutTooTight offset t).

(** The request [r] without its timeout header. *)
Definition withoutTimeoutHeader (r : Request) : Request :=
  mkRequest (delete timeoutHeader (Header r)) (Query r) (ReqContext r).

(** A stand-in for [strconv.ParseFloat] that knows a handful of inputs. *)
Definition sampleParseFloat (v : string) : float64 * option string :=
  if bool_decide (v = "10") then (10%float, None)
  else if bool_decide (v = "0") then (0%float, None)
  else if bool_decide (v = "-1") then ((-1)%float, None)
  else if bool_decide (v = "0.125") then (0.125%float, None)
  else if bool_decide (v = "NaN") then (nan, None)
  else (0%float, Some "invalid syntax").

Definition sampleRequest (timeout : string) : Request :=
  mkRequest {[ timeoutHeader := [timeout] ]} {[ "collect[]" := ["slave_status"] ]}
            (RequestContext 0).

Definition sampleConfig : Config :=
  mkConfig true (fun target => ("user:pw@tcp(" +:+ target +:+ ")/", None)).

(** A registry list of two probes, as [main] would hand it to [newHandler]. *)
Definition sampleRegistry : list Scraper :=
  [ScrapeSlaveStatus;
   mkScraper "info_schema.tables" "Collect metrics from information_schema.tables"
             0x1.4666666666666p+2%float].

End Exporter.

(** * Properties *)

(** ** Probe selection ([filterScrapers]) *)

Section Selection.
Import Collector Exporter.
Implicit Types (scrapers : list Scraper) (collectParams : list string).

(** What the [filters] map answers, in terms of the inclusion list. *)
Lemma mkFilters_from (filters : gmap string bool) collectParams name :
  filtersGet (foldl (fun (m : gmap string bool) param => <[param := true]> m)
                    filters collectParams) name
  = bool_decide (name ∈ collectParams) || filtersGet filters name.
Proof.
  revert filters. induction collectParams as [|p ps IH]; intros filters; simpl.
  - done.
  - rewrite IH. unfold filtersGet. destruct (decide (p = name)) as [->|Hne].
    + rewrite lookup_insert_eq. simpl.
      rewrite (bool_decide_eq_true_2 (name ∈ name :: ps)) by left.
      by rewrite orb_true_r.
    + rewrite lookup_insert_ne by done.
      f_equal. apply bool_decide_ext. rewrite elem_of_cons.
      split; [auto | intros [?|?]; [congruence | done]].
Qed.

Lemma filtersGet_mkFilters collectParams name :
  filtersGet (mkFilters collectParams) name = bool_decide (name ∈ collectParams).
Proof.
  unfold mkFilters. rewrite mkFilters_from. unfold filtersGet.
  rewrite lookup_empty. simpl. apply orb_false_r.
Qed.

(** The append loop is a filter of the registry list, in its order. *)
Lemma append_loop_filter collectParams scrapers (acc : list Scraper) :
  foldl (fun filteredScrapers scraper =>
           if filtersGet (mkFilters collectParams) (Name scraper)
           then filteredScrapers ++ [scraper] else filteredScrapers)
        acc scrapers
  = acc ++ selected collectParams scrapers.
Proof.
  unfold selected. revert acc. induction scrapers as [|s ss IH]; intros acc; simpl.
  - by rewrite app_nil_r.
  - rewrite IH, filtersGet_mkFilters, filter_cons.
    case_bool_decide; case_decide; try done.
    by rewrite <- app_assoc.
Qed.

Lemma filterScrapers_unfold scrapers collectParams :
  filterScrapers scrapers collectParams =
    match collectParams with
    | [] => scrapers
    | _ :: _ =>
        match selected collectParams scrapers with
        | [] => scrapers
        | kept => kept
        end
    end.
Proof.
  unfold filterScrapers. destruct collectParams as [|p ps]; [done|].
  rewrite (bool_decide_eq_true_2 (0 < length (p :: ps))%nat) by (simpl; lia).
  rewrite append_loop_filter. simpl app.
  destruct (selected _ scrapers); done.
Qed.

Lemma filterScrapers_nil scrapers : filterScrapers scrapers [] = scrapers.
Proof. by rewrite filterScrapers_unfold. Qed.

Lemma filterScrapers_nonempty scrapers collectParams :
  scrapers <> [] -> filterScrapers scrapers collectParams <> [].
Proof.
  intros Hne. rewrite filterScrapers_unfold.
  destruct collectParams; [done|]. by destruct (selected _ _).
Qed.

Lemma selected_all scrapers : selected (Name <$> scrapers) scrapers = scrapers.
Proof.
  unfold selected.
  assert (Hall : forall l : list Scraper,
             (forall s, s ∈ l -> Name s ∈ Name <$> scrapers) ->
             filter (fun s => Name s ∈ Name <$> scrapers) l = l).
  { induction l as [|s l IH]; intros Hin; [done|].
    rewrite filter_cons_True by (apply Hin; left).
    f_equal. apply IH. intros s' Hs'. apply Hin. by right. }
  apply Hall. intros s Hs. by apply list_elem_of_fmap_2.
Qed.

(** C3: an inclusion list that is empty, or non-empty with no identity
    matching a probe of the registry list, selects the whole registry
    list; that result is an empty list only when the registry list
    itself is empty. *)
Theorem C3_unknown_identities_select_all scrapers collectParams :
  filterScrapers scrapers [] = scrapers /\
  (collectParams <> [] ->
   (forall p s, p ∈ collectParams -> s ∈ scrapers -> Name s <> p) ->
   filterScrapers scrapers collectParams = scrapers /\
   (scrapers <> [] -> filterScrapers scrapers collectParams <> [])).
Proof.
  split; [apply filterScrapers_nil|]. intros _ Hunknown.
  assert (Heq : filterScrapers scrapers collectParams = scrapers).
  { rewrite filterScrapers_unfold. destruct collectParams as [|p ps]; [done|].
    replace (selected (p :: ps) scrapers) with (@nil Scraper); [done|].
    symmetry. unfold selected.
    induction scrapers as [|s ss IH]; [done|].
    rewrite filter_cons_False.
    - apply IH. intros q s' Hq Hs'. apply Hunknown; [done|by right].
    - intros Hin. apply (Hunknown (Name s) s); [done|left|done]. }
  split; [done|]. by rewrite Heq.
Qed.

Lemma C3_unknown_identities_select_all_witness :
  filterScrapers sampleRegistry ["no_such_probe"; "neither"] = sampleRegistry /\
  filterScrapers sampleRegistry ["no_such_probe"; "neither"] <> [].
Proof.
  destruct (C3_unknown_identities_select_all sampleRegistry ["no_such_probe"; "neither"])
    as [_ H].
  destruct H as [Heq Hne].
  - discriminate.
  - intros p s Hp Hs <-.
    assert (Hall : Forall (fun s => Name s ∉ ["no_such_probe"; "neither"]) sampleRegistry).
    { apply (bool_decide_unpack (Forall _ _)). vm_compute. exact I. }
    rewrite Forall_forall in Hall. by apply (Hall s).
  - split; [exact Heq|]. apply Hne. discriminate.
Defined.

(** C3 as stated ("never an empty set") fails for the empty registry
    list, which [main] builds when every probe is switched off: the
    whole registry list is then the empty list. *)
Lemma C3_empty_registry_counterexample :
  ["no_such_probe"] <> [] /\
  (forall p (s : Scraper), p ∈ ["no_such_probe"] -> s ∈ [] -> Name s <> p) /\
  filterScrapers [] ["no_such_probe"] = [].
Proof.
  split; [discriminate|]. split; [|reflexivity].
  intros p s _ Hs. by apply elem_of_nil in Hs.
Qed.

(** Selecting twice with the same inclusion list selects what selecting
    once does. *)
Lemma filterScrapers_idempotent scrapers collectParams :
  filterScrapers (filterScrapers scrapers collectParams) collectParams
  = filterScrapers scrapers collectParams.
Proof.
  rewrite !filterScrapers_unfold. destruct collectParams as [|p ps]; [done|].
  destruct (selected (p :: ps) scrapers) as [|k ks] eqn:Hsel.
  - by rewrite Hsel.
  - rewrite <- Hsel. unfold selected.
    rewrite list_filter_filter_l by done. fold (selected (p :: ps) scrapers).
    by rewrite Hsel.
Qed.

(** C4: the inclusion list that names the whole registry list selects
    the list that no inclusion list selects, the registry list itself in
    its own order; and selection is idempotent. *)
Theorem C4_selection_idempotent_order_stable scrapers collectParams :
  filterScrapers scrapers (Name <$> scrapers) = filterScrapers scrapers [] /\
  filterScrapers scrapers [] = scrapers /\
  filterScrapers (filterScrapers scrapers collectParams) collectParams
  = filterScrapers scrapers collectParams.
Proof.
  split; [|split].
  - rewrite filterScrapers_nil, filterScrapers_unfold.
    destruct (Name <$> scrapers) as [|name names] eqn:Hnames; [done|].
    rewrite <- Hnames, selected_all. by destruct scrapers.
  - apply filterScrapers_nil.
  - apply filterScrapers_idempotent.
Qed.

(** C9: the selected list is a subsequence of the registry list, and
    is non-empty whenever the registry list is. *)
Theorem C9_selection_sublist_nonempty scrapers collectParams :
  filterScrapers scrapers collectParams `sublist_of` scrapers /\
  (scrapers <> [] -> filterScrapers scrapers collectParams <> []).
Proof.
  split; [|apply filterScrapers_nonempty].
  rewrite filterScrapers_unfold. destruct collectParams as [|p ps]; [done|].
  destruct (selected (p :: ps) scrapers) eqn:Hsel; [done|].
  rewrite <- Hsel. apply sublist_filter.
Qed.

Lemma C9_selection_sublist_nonempty_witness :
  filterScrapers sampleRegistry ["slave_status"; "unknown"] `sublist_of` sampleRegistry /\
  filterScrapers sampleRegistry ["slave_status"; "unknown"] <> [].
Proof.
  destruct (C9_selection_sublist_nonempty sampleRegistry ["slave_status"; "unknown"])
    as [Hsub Hne].
  split; [exact Hsub|]. apply Hne. discriminate.
Defined.
End Selection.

(** ** Deadline derivation ([getScrapeTimeoutSeconds]) and the handler *)

Section Deadline.
Import Collector Exporter.

(** IEEE comparisons against zero, read off the specification of the
    primitive operations. *)
Lemma float_neg_not_zero t : (t <? 0)%float = true -> (t =? 0)%float = false.
Proof.
  rewrite FloatAxioms.ltb_spec, FloatAxioms.eqb_spec.
  change (Prim2SF 0) with (S754_zero false).
  destruct (Prim2SF t) as [s|s| |s m e]; try destruct s;
    cbv [SFltb SFeqb SFleb SFcompare]; congruence.
Qed.

Lemma float_pos_not_zero t : (0 <? t)%float = true -> (t =? 0)%float = false.
Proof.
  rewrite FloatAxioms.ltb_spec, FloatAxioms.eqb_spec.
  change (Prim2SF 0) with (S754_zero false).
  destruct (Prim2SF t) as [s|s| |s m e]; try destruct s;
    cbv [SFltb SFeqb SFleb SFcompare]; congruence.
Qed.

Lemma float_pos_not_neg t : (0 <? t)%float = true -> (t <? 0)%float = false.
Proof.
  rewrite !FloatAxioms.ltb_spec.
  change (Prim2SF 0) with (S754_zero false).
  destruct (Prim2SF t) as [s|s| |s m e]; try destruct s;
    cbv [SFltb SFeqb SFleb SFcompare]; congruence.
Qed.

(** A value that is neither zero, nor below, nor above zero is not a
    number, and then no offset is at least it. *)
Lemma float_unordered_leb t o :
  (t =? 0)%float = false -> (t <? 0)%float = false -> (0 <? t)%float = false ->
  (t <=? o)%float = false.
Proof.
  rewrite !FloatAxioms.ltb_spec, FloatAxioms.eqb_spec, FloatAxioms.leb_spec.
  change (Prim2SF 0) with (S754_zero false).
  destruct (Prim2SF t) as [s|s| |s m e]; try destruct s;
    cbv [SFltb SFeqb SFleb SFcompare]; congruence.
Qed.

Variable ParseFloat : string -> float64 * option string.

Section Parsed.
Variables (r : Request) (offset : float64) (v : string) (t : float64).
Hypothesis Hget : mapGet (Header r) timeoutHeader = v.
Hypothesis Hv : v <> "".
Hypothesis Hparse : ParseFloat v = (t, None).

Lemma deriver_parsed :
  getScrapeTimeoutSeconds ParseFloat r offset =
    if (t =? 0)%float then (0%float, None)
    else if (t <? 0)%float then (0%float, Some (ErrInvalidTimeout t))
    else if (t <=? offset)%float then (0%float, Some (ErrTimeoutTooTight offset t))
    else ((t - offset)%float, None).
Proof.
  unfold getScrapeTimeoutSeconds. rewrite Hget.
  rewrite bool_decide_eq_true_2 by done. by rewrite Hparse.
Qed.

Lemma deriver_zero :
  (t =? 0)%float = true ->
  getScrapeTimeoutSeconds ParseFloat r offset = (0%float, None).
Proof. intros Hz. by rewrite deriver_parsed, Hz. Qed.

Lemma deriver_negative :
  (t <? 0)%float = true ->
  getScrapeTimeoutSeconds ParseFloat r offset = (0%float, Some (ErrInvalidTimeout t)).
Proof.
  intros Hneg. by rewrite deriver_parsed, (float_neg_not_zero _ Hneg), Hneg.
Qed.

Lemma deriver_too_tight :
  (0 <? t)%float = true -> (t <=? offset)%float = true ->
  getScrapeTimeoutSeconds ParseFloat r offset
  = (0%float, Some (ErrTimeoutTooTight offset t)).
Proof.
  intros Hpos Hle. rewrite deriver_parsed.
  by rewrite (float_pos_not_zero _ Hpos), (float_pos_not_neg _ Hpos), Hle.
Qed.

Lemma deriver_otherwise :
  (t =? 0)%float = false -> (t <? 0)%float = false ->
  ((0 <? t)%float && (t <=? offset)%float) = false ->
  getScrapeTimeoutSeconds ParseFloat r offset = ((t - offset)%float, None).
Proof.
  intros Hz Hneg Hnot. rewrite deriver_parsed, Hz, Hneg.
  destruct (0 <? t)%float eqn:Hpos.
  - simpl in Hnot. by rewrite Hnot.
  - by rewrite (float_unordered_leb t offset Hz Hneg Hpos).
Qed.
End Parsed.

Lemma deriver_no_value (r : Request) (offset : float64) :
  mapGet (Header r) timeoutHeader = "" ->
  getScrapeTimeoutSeconds ParseFloat r offset = (0%float, None).
Proof.
  intros Hget. unfold getScrapeTimeoutSeconds. rewrite Hget.
  by rewrite bool_decide_eq_false_2 by auto.
Qed.

Lemma deriver_absent (r : Request) (offset : float64) :
  Header r !! timeoutHeader = None ->
  getScrapeTimeoutSeconds ParseFloat r offset = (0%float, None).
Proof.
  intros Habsent. apply deriver_no_value. unfold mapGet. by rewrite Habsent.
Qed.

(** C2: without the header, or with the value 0, there is no deadline
    and no error; a negative value is an invalid-timeout error; a
    positive value that the offset reaches ([offset >= t]) is a
    too-tight error; every other value [t] gives the [float64]
    difference [t - offset] and no error. *)
Theorem C2_deadline_deriver_cases (r : Request) (offset : float64) :
  (Header r !! timeoutHeader = None ->
   getScrapeTimeoutSeconds ParseFloat r offset = (0%float, None)) /\
  (forall v t,
     mapGet (Header r) timeoutHeader = v -> v <> "" -> ParseFloat v = (t, None) ->
     ((t =? 0)%float = true ->
      getScrapeTimeoutSeconds ParseFloat r offset = (0%float, None)) /\
     ((t <? 0)%float = true ->
      getScrapeTimeoutSeconds ParseFloat r offset = (0%float, Some (ErrInvalidTimeout t))) /\
     ((0 <? t)%float = true -> (t <=? offset)%float = true ->
      getScrapeTimeoutSeconds ParseFloat r offset
      = (0%float, Some (ErrTimeoutTooTight offset t))) /\
     ((t =? 0)%float = false -> (t <? 0)%float = false ->
      ((0 <? t)%float && (t <=? offset)%float) = false ->
      getScrapeTimeoutSeconds ParseFloat r offset = ((t - offset)%float, None))).
Proof.
  split; [apply deriver_absent|]. intros v t Hget Hv Hparse.
  refine (conj _ (conj _ (conj _ _))).
  - by apply (deriver_zero r offset v t).
  - by apply (deriver_negative r offset v t).
  - by apply (deriver_too_tight r offset v t).
  - by apply (deriver_otherwise r offset v t).
Qed.
End Deadline.

Section DeadlineExamples.
Import Collector Exporter.

Lemma C2_deadline_deriver_cases_witness :
  getScrapeTimeoutSeconds sampleParseFloat (mkRequest ∅ ∅ (RequestContext 0)) 0.25%float
  = (0%float, None) /\
  getScrapeTimeoutSeconds sampleParseFloat (sampleRequest "0") 0.25%float
  = (0%float, None) /\
  getScrapeTimeoutSeconds sampleParseFloat (sampleRequest "-1") 0.25%float
  = (0%float, Some (ErrInvalidTimeout (-1)%float)) /\
  getScrapeTimeoutSeconds sampleParseFloat (sampleRequest "0.125") 0.25%float
  = (0%float, Some (ErrTimeoutTooTight 0.25%float 0.125%float)) /\
  getScrapeTimeoutSeconds sampleParseFloat (sampleRequest "10") 0.25%float
  = (9.75%float, None).
Proof.
  refine (conj _ (conj _ (conj _ (conj _ _)))).
  - apply (C2_deadline_deriver_cases sampleParseFloat). reflexivity.
  - apply (C2_deadline_deriver_cases sampleParseFloat (sampleRequest "0") 0.25%float)
      with (v := "0") (t := 0%float);
      [reflexivity | discriminate | reflexivity | reflexivity].
  - apply (C2_deadline_deriver_cases sampleParseFloat (sampleRequest "-1") 0.25%float)
      with (v := "-1") (t := (-1)%float);
      [reflexivity | discriminate | reflexivity | reflexivity].
  - apply (C2_deadline_deriver_cases sampleParseFloat (sampleRequest "0.125") 0.25%float)
      with (v := "0.125") (t := 0.125%float);
      [reflexivity | discriminate | reflexivity | reflexivity | reflexivity].
  - apply (C2_deadline_deriver_cases sampleParseFloat (sampleRequest "10") 0.25%float)
      with (v := "10") (t := 10%float);
      [reflexivity | discriminate | reflexivity | reflexivity | reflexivity | reflexivity].
Defined.

(** A header that reads as not-a-number is no error: the result is
    not-a-number, which the handler does not take for a timeout. *)
Example getScrapeTimeoutSeconds_nan :
  getScrapeTimeoutSeconds sampleParseFloat (sampleRequest "NaN") 0.25%float
  = (nan, None) /\
  (0 <? nan)%float = false.
Proof. split; reflexivity. Qed.
End DeadlineExamples.

Section HandlerProperties.
Import Collector Exporter.
Variable ParseFloat : string -> float64 * option string.
Variable c : Config.
Variable timeoutOffset : float64.

(** Each kind of invalid header makes the deriver return zero seconds
    and the matching error. *)
Lemma invalidTimeout_error r err :
  invalidTimeout ParseFloat timeoutOffset r err ->
  getScrapeTimeoutSeconds ParseFloat r timeoutOffset = (0%float, Some err).
Proof.
  intros [v t cause Hget Hv Hparse | v t Hget Hv Hparse Hneg
         | v t Hget Hv Hparse Hpos Hle].
  - unfold getScrapeTimeoutSeconds. rewrite Hget.
    rewrite bool_decide_eq_true_2 by done. by rewrite Hparse.
  - by apply (deriver_negative ParseFloat r timeoutOffset v t).
  - by apply (deriver_too_tight ParseFloat r timeoutOffset v t).
Qed.

Lemma withoutTimeoutHeader_no_deadline r :
  getScrapeTimeoutSeconds ParseFloat (withoutTimeoutHeader r) timeoutOffset
  = (0%float, None).
Proof.
  unfold getScrapeTimeoutSeconds, withoutTimeoutHeader, mapGet. simpl.
  rewrite lookup_delete_eq. by rewrite bool_decide_eq_false_2 by auto.
Qed.

(** C8: when the timeout header is invalid (unparsable, negative, or
    not above the offset), the handler logs the error and goes on: the
    collector gets the request's own context with no timeout added, the
    request is passed on unchanged, and apart from the log line the
    handler does what it does for the same request without the header. *)
Theorem C8_invalid_timeout_fails_open (scrapers : list Scraper) (r : Request)
    (err : timeoutError) :
  invalidTimeout ParseFloat timeoutOffset r err ->
  let served := newHandler ParseFloat c timeoutOffset scrapers r in
  let plain := newHandler ParseFloat c timeoutOffset scrapers (withoutTimeoutHeader r) in
  logged served = logged plain ++ [LogTimeout err] /\
  collectorCtx served = ReqContext r /\
  servedRequest served = r /\
  collectorCtx served = collectorCtx plain /\
  collectorDSN served = collectorDSN plain /\
  collectorScrapers served = collectorScrapers plain /\
  collectorScrapers served = filterScrapers scrapers (mapIndex (Query r) "collect[]").
Proof.
  intros Hinvalid served plain. subst served plain. unfold newHandler.
  rewrite (invalidTimeout_error _ _ Hinvalid), withoutTimeoutHeader_no_deadline.
  simpl (Query (withoutTimeoutHeader r)).
  destruct (FormDSN c _) as [dsn e]. simpl.
  rewrite !app_nil_r, <- app_assoc. done.
Qed.
End HandlerProperties.

Section HandlerExamples.
Import Collector Exporter.

Lemma C8_invalid_timeout_fails_open_witness :
  invalidTimeout sampleParseFloat 0.25%float (sampleRequest "-1")
    (ErrInvalidTimeout (-1)%float) /\
  logged (newHandler sampleParseFloat sampleConfig 0.25%float sampleRegistry
            (sampleRequest "-1"))
  = [LogTimeout (ErrInvalidTimeout (-1)%float)] /\
  collectorCtx (newHandler sampleParseFloat sampleConfig 0.25%float sampleRegistry
                  (sampleRequest "-1"))
  = RequestContext 0.
Proof.
  assert (Hinvalid : invalidTimeout sampleParseFloat 0.25%float (sampleRequest "-1")
                       (ErrInvalidTimeout (-1)%float)).
  { apply (TimeoutNegative _ _ _ "-1" (-1)%float);
      [reflexivity | discriminate | reflexivity | reflexivity]. }
  split; [exact Hinvalid|].
  destruct (C8_invalid_timeout_fails_open sampleParseFloat sampleConfig 0.25%float
              sampleRegistry (sampleRequest "-1") _ Hinvalid)
    as (Hlog & Hctx & _).
  split; [exact Hlog | exact Hctx].
Defined.
End HandlerExamples.

(** ** Columns by name ([columnIndex], [columnValue]) *)

Section Columns.
Import Go Collector.
Implicit Types (row : list (string * string)) (colName : string).

(** [columnIndex] finds the first column of the name: its index,
    counted from [idx], when the row has one, and -1 when it has none. *)
Lemma columnIndexFrom_spec row colName (idx : Z) :
  match rowMap row !! colName with
  | None => columnIndexFrom idx row.*1 colName = (-1)%Z
  | Some v =>
      exists i : nat,
        columnIndexFrom idx row.*1 colName = (idx + Z.of_nat i)%Z /\
        row.*2 !! i = Some v
  end.
Proof.
  unfold rowMap. revert idx.
  induction row as [|[col raw] row IH]; intros idx; simpl.
  - by rewrite lookup_empty.
  - case_bool_decide as Hcol; simplify_eq/=.
    + rewrite lookup_insert_eq. exists 0%nat. split; [lia|done].
    + rewrite lookup_insert_ne by done.
      specialize (IH (idx + 1)%Z).
      destruct (list_to_map row !! colName) as [v|]; [|done].
      destruct IH as (i & Hidx & Hraw). exists (S i). split; [|done]. etrans; [exact Hidx|lia].
Qed.

(** Reading a column by name never indexes past the end of a scanned
    row, and gives what the row holds under that name, or [""]. *)
Lemma columnValue_rowMap row colName :
  columnValue row.*2 row.*1 colName = Some (default "" (rowMap row !! colName)).
Proof.
  unfold columnValue, columnIndex.
  pose proof (columnIndexFrom_spec row colName 0) as Hspec.
  destruct (rowMap row !! colName) as [v|].
  - destruct Hspec as (i & -> & Hraw).
    rewrite bool_decide_eq_false_2 by lia.
    by replace (Z.to_nat (0 + Z.of_nat i)) with i by lia.
  - by rewrite Hspec, bool_decide_eq_true_2.
Qed.

(** A row with pairwise distinct column names reads the same by name
    however its columns are ordered. *)
Lemma rowMap_permutation row row' :
  NoDup row.*1 -> row ≡ₚ row' -> rowMap row = rowMap row'.
Proof. intros Hnodup Hperm. by apply list_to_map_proper. Qed.
End Columns.

(** ** One row ([scrapeRow]) *)

Section Row.
Import Go Collector.
Variable namespace : string.
Variable parseStatus : string -> float64 * bool.
Implicit Types (row : list (string * string)) (ch : list Metric).

Lemma genericLoop_spec row (done : list string) ch h u c n :
  genericLoop namespace parseStatus (length done) row.*1 (done ++ row.*2) h u c n ch
  = Some (ch ++ (row ≫= genericOf namespace parseStatus h u c n)).
Proof.
  revert done ch. induction row as [|[col raw] row IH]; intros done ch.
  - simpl. by rewrite app_nil_r.
  - rewrite !fmap_cons. cbn [genericLoop fst snd].
    rewrite lookup_app_r by lia. rewrite Nat.sub_diag. cbn [lookup list_lookup mbind option_bind].
    replace (done ++ raw :: row.*2) with ((done ++ [raw]) ++ row.*2)
      by (by rewrite <- app_assoc).
    replace (S (length done)) with (length (done ++ [raw]))
      by (rewrite length_app; simpl; lia).
    rewrite IH. rewrite bind_cons. unfold genericOf at 2. cbn [fst snd].
    destruct (parseStatus raw) as [value [|]].
    + by rewrite <- app_assoc.
    + done.
Qed.

Lemma gtidStep_app name h u c n ch gtid :
  gtidStep namespace name h u c n ch gtid
  = ch ++ gtidStep namespace name h u c n [] gtid.
Proof.
  unfold gtidStep.
  destruct (Split gtid "-") as [|d [|s [|q [|]]]]; try by rewrite app_nil_r.
  destruct (ParseUint q) as [sequence_num [err|]]; [by rewrite app_nil_r|done].
Qed.

Lemma gtid_loop_bind name h u c n ch (gtids : list string) :
  foldl (gtidStep namespace name h u c n) ch gtids
  = ch ++ (gtids ≫= gtidStep namespace name h u c n []).
Proof.
  revert ch. induction gtids as [|gtid gtids IH]; intros ch; simpl.
  - by rewrite app_nil_r.
  - rewrite IH, (gtidStep_app _ _ _ _ _ ch). by rewrite <- app_assoc.
Qed.

Lemma parseMariaDBGtid_app name value h u c n ch :
  parseMariaDBGtid namespace ch name value h u c n = ch ++ gtidOf namespace name value h u c n.
Proof.
  unfold gtidOf, parseMariaDBGtid. case_bool_decide; [by rewrite app_nil_r|].
  by rewrite gtid_loop_bind, (gtid_loop_bind _ _ _ _ _ []).
Qed.

Lemma rowLabels_spec row :
  rowLabels row.*2 row.*1
  = Some (preferred row "Master_Host" "Source_Host",
          preferred row "Master_UUID" "Source_UUID",
          field row "Channel_Name", field row "Connection_name").
Proof.
  unfold rowLabels, preferred, field. rewrite !columnValue_rowMap. simpl.
  destruct (rowMap row !! "Master_UUID") as [uuid|]; simpl;
    destruct (rowMap row !! "Master_Host") as [host|]; simpl;
    repeat case_bool_decide; simplify_eq/=; try done.
Qed.

Lemma scrapeRow_spec row ch :
  scrapeRow namespace parseStatus row.*2 row.*1 ch = Some (ch ++ rowMetrics namespace parseStatus row).
Proof.
  unfold scrapeRow, rowMetrics. rewrite rowLabels_spec. simpl.
  rewrite (genericLoop_spec row []). simpl.
  rewrite !columnValue_rowMap. simpl.
  rewrite !parseMariaDBGtid_app. fold (field row "Gtid_IO_Pos").
  fold (field row "Gtid_Slave_Pos"). by rewrite <- !app_assoc.
Qed.

(** After a successful [Scan] the row has as many values as columns, and
    then the body of the loop neither indexes past the end nor stops
    short. *)
Lemma scrapeRow_no_panic (scanArgs slaveCols : list string) ch :
  length scanArgs = length slaveCols ->
  scrapeRow namespace parseStatus scanArgs slaveCols ch
  = Some (ch ++ rowMetrics namespace parseStatus (zip slaveCols scanArgs)).
Proof.
  intros Hlen. rewrite <- scrapeRow_spec.
  by rewrite fst_zip, snd_zip by lia.
Qed.

(** The loop over the rows never panics: it ends with the first [Scan]
    error, or without error after the last row. *)
Lemma rowsLoop_no_panic (slaveCols : list string) (data : list scanned) ch :
  (rowsLoop namespace parseStatus slaveCols data ch).1 <> Panic.
Proof.
  revert ch. induction data as [|scannedRow data IH]; intros ch; simpl; [done|].
  destruct scannedRow as [values|err]; simpl; [|done].
  case_bool_decide as Hlen; [|done].
  rewrite scrapeRow_no_panic by done. apply IH.
Qed.
End Row.

(** ** What a row emits *)

Section RowProperties.
Import Go Collector.
Variable namespace : string.
Variable parseStatus : string -> float64 * bool.
Implicit Types (row : list (string * string)) (ch : list Metric).

Lemma gtidOf_bind name value h u c n :
  gtidOf namespace name value h u c n
  = if bool_decide (value = "") then []
    else Split value "," ≫= gtidStep namespace name h u c n [].
Proof.
  unfold gtidOf, parseMariaDBGtid. case_bool_decide; [done|].
  by rewrite gtid_loop_bind.
Qed.

Lemma concat_fmap_bind {A B} (f : A -> list B) (l : list A) :
  concat (f <$> l) = l ≫= f.
Proof.
  induction l as [|x l IH]; [done|].
  rewrite bind_cons, fmap_cons. simpl. by rewrite IH.
Qed.

(** Every metric of a row carries the row's master host and UUID. *)
Lemma genericOf_labels h u c n column :
  Forall (fun m => label m "master_host" = Some h /\ label m "master_uuid" = Some u)
         (genericOf namespace parseStatus h u c n column).
Proof.
  unfold genericOf. destruct (parseStatus column.2) as [value [|]]; [|constructor].
  repeat constructor.
Qed.

Lemma gtidOf_labels name value h u c n :
  Forall (fun m => label m "master_host" = Some h /\ label m "master_uuid" = Some u)
         (gtidOf namespace name value h u c n).
Proof.
  rewrite gtidOf_bind. case_bool_decide; [constructor|].
  apply Forall_bind, Forall_forall. intros gtid _. unfold gtidStep. simpl.
  destruct (Split gtid "-") as [|d [|s [|q [|]]]]; try constructor.
  destruct (ParseUint q) as [sequence_num [err|]]; repeat constructor.
Qed.

(** C10: the metrics a row emits carry, as [master_host], the value of
    its [Master_Host] column when the row has that column with a
    non-empty value, otherwise the value of its [Source_Host] column,
    otherwise the empty string; and as [master_uuid] the same choice
    between [Master_UUID] and [Source_UUID]. *)
Theorem C10_master_labels_prefer_master_then_source row ch :
  rowLabels row.*2 row.*1
  = Some (preferred row "Master_Host" "Source_Host",
          preferred row "Master_UUID" "Source_UUID",
          field row "Channel_Name", field row "Connection_name") /\
  exists emitted,
    scrapeRow namespace parseStatus row.*2 row.*1 ch = Some (ch ++ emitted) /\
    Forall (fun m =>
              label m "master_host" = Some (preferred row "Master_Host" "Source_Host") /\
              label m "master_uuid" = Some (preferred row "Master_UUID" "Source_UUID"))
           emitted.
Proof.
  split; [apply rowLabels_spec|].
  exists (rowMetrics namespace parseStatus row). split; [apply scrapeRow_spec|].
  unfold rowMetrics. rewrite !Forall_app. split; [|split].
  - apply Forall_bind, Forall_forall. intros column _. apply genericOf_labels.
  - apply gtidOf_labels.
  - apply gtidOf_labels.
Qed.

Lemma rowMetrics_permutation row row' :
  NoDup row.*1 -> row ≡ₚ row' ->
  rowMetrics namespace parseStatus row ≡ₚ rowMetrics namespace parseStatus row'.
Proof.
  intros Hnodup Hperm. unfold rowMetrics, preferred, field.
  rewrite <- (rowMap_permutation row row' Hnodup Hperm).
  apply Permutation_app; [|done]. by apply bind_Permutation.
Qed.

(** What a row emits depends on the order of its columns only through
    what the names read by name resolve to. *)
Lemma rowMetrics_agree row row' :
  row ≡ₚ row' ->
  Forall (fun name => rowMap row !! name = rowMap row' !! name) namesRead ->
  rowMetrics namespace parseStatus row ≡ₚ rowMetrics namespace parseStatus row'.
Proof.
  intros Hperm Hagree. unfold rowMetrics, preferred, field.
  repeat (apply Forall_cons_1 in Hagree as [<- Hagree]).
  apply Permutation_app; [|done]. by apply bind_Permutation.
Qed.

(** C5, for a reordering that leaves unchanged what each of the eight
    column names read by name resolves to (the value of the first
    column of that name; in particular when none of these names is
    repeated): the row and the reordered row emit the same metrics,
    each the same number of times. Other column names may repeat. *)
Theorem C5_order_independent_when_named_columns_agree row row' ch :
  row ≡ₚ row' ->
  Forall (fun name => rowMap row !! name = rowMap row' !! name) namesRead ->
  exists emitted emitted',
    scrapeRow namespace parseStatus row.*2 row.*1 ch = Some (ch ++ emitted) /\
    scrapeRow namespace parseStatus row'.*2 row'.*1 ch = Some (ch ++ emitted') /\
    emitted ≡ₚ emitted'.
Proof.
  intros Hperm Hagree.
  exists (rowMetrics namespace parseStatus row), (rowMetrics namespace parseStatus row').
  split; [apply scrapeRow_spec|]. split; [apply scrapeRow_spec|].
  by apply rowMetrics_agree.
Qed.

(** Rows whose column names are pairwise distinct are a case of it. *)
Lemma distinct_columns_order_independent row row' ch :
  NoDup row.*1 -> row ≡ₚ row' ->
  exists emitted emitted',
    scrapeRow namespace parseStatus row.*2 row.*1 ch = Some (ch ++ emitted) /\
    scrapeRow namespace parseStatus row'.*2 row'.*1 ch = Some (ch ++ emitted') /\
    emitted ≡ₚ emitted'.
Proof.
  intros Hnodup Hperm.
  exists (rowMetrics namespace parseStatus row), (rowMetrics namespace parseStatus row').
  split; [apply scrapeRow_spec|]. split; [apply scrapeRow_spec|].
  by apply rowMetrics_permutation.
Qed.

Lemma gtidOf_not_generic name value h u c n :
  name +:+ " metric from SHOW SLAVE STATUS." <> genericHelp ->
  Forall (fun m => help (desc m) <> genericHelp) (gtidOf namespace name value h u c n).
Proof.
  intros Hname. rewrite gtidOf_bind. case_bool_decide; [constructor|].
  apply Forall_bind, Forall_forall. intros gtid _. unfold gtidStep. simpl.
  destruct (Split gtid "-") as [|d [|s [|q [|]]]]; try constructor.
  destruct (ParseUint q) as [sequence_num [err|]]; repeat constructor. exact Hname.
Qed.

(** C6: the generic metrics of a row are, column by column, exactly one
    metric for a column whose raw value [parseStatus] reads as a number
    (named after the lowercased column, with that number as value) and
    none for a column it does not; the probe goes through the row
    without error. The only other metrics of the row are the GTID
    metrics read from its [Gtid_IO_Pos] and [Gtid_Slave_Pos] columns,
    none of which is a generic metric. *)
Theorem C6_one_generic_metric_per_parsable_column row ch :
  exists (perColumn : list (list Metric)) (h u c n : string),
    rowLabels row.*2 row.*1 = Some (h, u, c, n) /\
    scrapeRow namespace parseStatus row.*2 row.*1 ch
    = Some (ch ++ concat perColumn
               ++ gtidOf namespace "Gtid_IO_Pos" (field row "Gtid_IO_Pos") h u c n
               ++ gtidOf namespace "Gtid_Slave_Pos" (field row "Gtid_Slave_Pos") h u c n) /\
    Forall2 (fun column metrics =>
               match parseStatus column.2 with
               | (number, true) =>
                   exists m, metrics = [m] /\
                     help (desc m) = genericHelp /\
                     fqName (desc m) = BuildFQName namespace slaveStatus (ToLower column.1) /\
                     value m = number /\ valueType m = UntypedValue
               | (_, false) => metrics = []
               end) row perColumn /\
    Forall (fun m => help (desc m) <> genericHelp)
           (gtidOf namespace "Gtid_IO_Pos" (field row "Gtid_IO_Pos") h u c n
            ++ gtidOf namespace "Gtid_Slave_Pos" (field row "Gtid_Slave_Pos") h u c n) /\
    rowsLoop namespace parseStatus row.*1 [RowValues row.*2] ch
    = (Return None,
       ch ++ concat perColumn
          ++ gtidOf namespace "Gtid_IO_Pos" (field row "Gtid_IO_Pos") h u c n
          ++ gtidOf namespace "Gtid_Slave_Pos" (field row "Gtid_Slave_Pos") h u c n).
Proof.
  set (h := preferred row "Master_Host" "Source_Host").
  set (u := preferred row "Master_UUID" "Source_UUID").
  set (c := field row "Channel_Name"). set (n := field row "Connection_name").
  exists (genericOf namespace parseStatus h u c n <$> row), h, u, c, n.
  assert (Hrow : scrapeRow namespace parseStatus row.*2 row.*1 ch
                 = Some (ch ++ concat (genericOf namespace parseStatus h u c n <$> row)
                         ++ gtidOf namespace "Gtid_IO_Pos" (field row "Gtid_IO_Pos") h u c n
                         ++ gtidOf namespace "Gtid_Slave_Pos" (field row "Gtid_Slave_Pos")
                              h u c n)).
  { rewrite scrapeRow_spec, concat_fmap_bind. reflexivity. }
  split; [apply rowLabels_spec|]. split; [exact Hrow|]. split; [|split].
  - apply Forall2_fmap_r, Forall_Forall2_diag, Forall_forall. intros column _.
    unfold genericOf. simpl. destruct (parseStatus column.2) as [number [|]]; [|done].
    exists (genericMetric namespace column.1 number h u c n).
    repeat split.
  - apply Forall_app_2; by apply gtidOf_not_generic.
  - simpl. rewrite bool_decide_eq_true_2 by (by rewrite !length_fmap).
    by rewrite Hrow.
Qed.
End RowProperties.

Section RowExamples.
Import Go Collector.

Lemma C5_order_independent_when_named_columns_agree_witness :
  exists emitted emitted',
    scrapeRow "mysql" sampleParseStatus
      ["db1"; "0"; "1"] ["Master_Host"; "Relay_Log_Pos"; "Relay_Log_Pos"] []
    = Some ([] ++ emitted) /\
    scrapeRow "mysql" sampleParseStatus
      ["1"; "db1"; "0"] ["Relay_Log_Pos"; "Master_Host"; "Relay_Log_Pos"] []
    = Some ([] ++ emitted') /\
    emitted ≡ₚ emitted'.
Proof.
  apply (C5_order_independent_when_named_columns_agree "mysql" sampleParseStatus
           [("Master_Host", "db1"); ("Relay_Log_Pos", "0"); ("Relay_Log_Pos", "1")]
           [("Relay_Log_Pos", "1"); ("Master_Host", "db1"); ("Relay_Log_Pos", "0")]
           []).
  - apply (bool_decide_unpack (_ ≡ₚ _)). vm_compute. exact I.
  - repeat constructor.
Defined.

(** A row whose [Master_Host] is empty takes the label from
    [Source_Host]; a row with neither column has the empty label. *)
Example rowLabels_source_host :
  rowLabels ["3306"; ""; "replica-source"] ["Source_Port"; "Master_Host"; "Source_Host"]
  = Some ("replica-source", "", "", "") /\
  rowLabels ["3306"] ["Source_Port"] = Some ("", "", "", "").
Proof. split; reflexivity. Qed.

(** C6 as stated ("contributes no metric") fails on the GTID columns:
    the raw value ["0-1-100"] is no number, yet the [Gtid_IO_Pos]
    column contributes a metric, and one named after the lowercased
    column at that. *)
Lemma C6_gtid_column_counterexample :
  sampleParseStatus "0-1-100" = (0%float, false) /\
  scrapeRow "mysql" sampleParseStatus ["0-1-100"] ["Gtid_IO_Pos"] []
  = Some [gtidMetric "mysql" "Gtid_IO_Pos" 100 "" "" "" "" "0" "1"] /\
  fqName (desc (gtidMetric "mysql" "Gtid_IO_Pos" 100 "" "" "" "" "0" "1"))
  = BuildFQName "mysql" slaveStatus (ToLower "Gtid_IO_Pos") /\
  value (gtidMetric "mysql" "Gtid_IO_Pos" 100 "" "" "" "" "0" "1") = 100%float.
Proof. repeat split. Qed.

(** C5 as stated fails on a row with two columns of one name: swapping
    them changes the [master_host] label of every metric of the row. *)
Lemma C5_duplicate_column_counterexample :
  [("Master_Host", "db1"); ("Master_Host", "db2"); ("Master_Port", "3306")]
  ≡ₚ [("Master_Host", "db2"); ("Master_Host", "db1"); ("Master_Port", "3306")] /\
  exists emitted emitted',
    scrapeRow "mysql" sampleParseStatus
      ["db1"; "db2"; "3306"] ["Master_Host"; "Master_Host"; "Master_Port"] []
    = Some emitted /\
    scrapeRow "mysql" sampleParseStatus
      ["db2"; "db1"; "3306"] ["Master_Host"; "Master_Host"; "Master_Port"] []
    = Some emitted' /\
    labelValues <$> emitted = [["db1"; ""; ""; ""]] /\
    labelValues <$> emitted' = [["db2"; ""; ""; ""]] /\
    ~ emitted ≡ₚ emitted'.
Proof.
  split; [apply perm_swap|].
  eexists. eexists. split; [vm_compute; reflexivity|]. split; [vm_compute; reflexivity|].
  split; [reflexivity|]. split; [reflexivity|].
  intros Hperm. apply (fmap_Permutation labelValues) in Hperm.
  assert (Hin : ["db1"; ""; ""; ""] ∈ [["db2"; ""; ""; ""]]).
  { vm_compute in Hperm. rewrite <- Hperm. left. }
  apply list_elem_of_singleton in Hin. discriminate.
Qed.
End RowExamples.

(** ** GTID positions ([parseMariaDBGtid]) *)

Section SplitJoin.
Import Go Collector.
Implicit Types (s piece : string) (sep : ascii).

Lemma Split_nonempty s sep : Split s sep <> [].
Proof.
  destruct s as [|c s]; simpl; [done|].
  destruct (Ascii.eqb c sep); [done|]. by destruct (Split s sep).
Qed.

(** No piece of a split contains the separator. *)
Lemma Split_pieces s sep : Forall (fun piece => hasByte sep piece = false) (Split s sep).
Proof.
  induction s as [|c s IH]; simpl.
  - by repeat constructor.
  - destruct (Ascii.eqb c sep) eqn:Hc.
    + by constructor.
    + destruct (Split s sep) as [|piece pieces]; simpl.
      * repeat constructor. simpl. by rewrite Hc.
      * inversion IH; subst. constructor; [|done]. simpl. by rewrite Hc.
Qed.

(** Joining the pieces with the separator gives the string back. *)
Lemma concat_Split s sep : String.concat (String sep "") (Split s sep) = s.
Proof.
  induction s as [|c s IH]; simpl; [done|].
  destruct (Ascii.eqb c sep) eqn:Hc.
  - apply Ascii.eqb_eq in Hc as ->.
    pose proof (Split_nonempty s sep).
    destruct (Split s sep) as [|piece pieces]; [done|]. simpl in *. by rewrite IH.
  - destruct (Split s sep) as [|piece pieces]; simpl in *; [by subst|].
    destruct pieces; simpl in *; by subst.
Qed.

Lemma Split_no_separator s sep : hasByte sep s = false -> Split s sep = [s].
Proof.
  induction s as [|c s IH]; simpl; [done|].
  intros [Hc Hs]%orb_false_elim. rewrite Hc. by rewrite IH.
Qed.

Lemma Split_app piece s sep :
  hasByte sep piece = false ->
  Split (piece +:+ String sep s) sep = piece :: Split s sep.
Proof.
  induction piece as [|c piece IH]; simpl.
  - intros _. by rewrite Ascii.eqb_refl.
  - intros [Hc Hs]%orb_false_elim. rewrite Hc. by rewrite IH.
Qed.

(** Splitting a join of separator-free pieces gives the pieces back. *)
Lemma Split_concat (pieces : list string) sep :
  pieces <> [] ->
  Forall (fun piece => hasByte sep piece = false) pieces ->
  Split (String.concat (String sep "") pieces) sep = pieces.
Proof.
  induction pieces as [|piece pieces IH]; [done|]. intros _ Hfree.
  inversion Hfree as [|? ? Hpiece Hrest]; subst.
  destruct pieces as [|piece' pieces].
  - simpl. by apply Split_no_separator.
  - change (String.concat (String sep "") (piece :: piece' :: pieces))
      with (piece +:+ String sep (String.concat (String sep "") (piece' :: pieces))).
    rewrite Split_app by done. f_equal. by apply IH.
Qed.

Lemma digit10_not_dash c d : digit10 c = Some d -> Ascii.eqb c "-" = false.
Proof.
  destruct c as [[] [] [] [] [] [] [] []]; vm_compute; congruence.
Qed.

Lemma parseUintLoop_no_dash s acc n :
  parseUintLoop s acc = (n, None) -> hasByte "-" s = false.
Proof.
  revert acc. induction s as [|c s IH]; intros acc; simpl; [done|].
  destruct (digit10 c) as [d|] eqn:Hd; [|done].
  rewrite (digit10_not_dash _ _ Hd). simpl.
  destruct (cutoff <=? acc)%Z; [done|].
  destruct (_ || _); [done|]. apply IH.
Qed.

(** A string [ParseUint] accepts has no ['-'] in it. *)
Lemma ParseUint_no_dash s n : ParseUint s = (n, None) -> hasByte "-" s = false.
Proof.
  unfold ParseUint. case_bool_decide; [done|]. apply parseUintLoop_no_dash.
Qed.
End SplitJoin.

Section Gtid.
Import Go Collector.
Variable namespace : string.
Implicit Types (name h u c n : string) (ch : list Metric).

(** How one entry is read. *)
Lemma gtidStep_well_formed name h u c n (d s q : string) (seq : Z) :
  hasByte "-" d = false -> hasByte "-" s = false -> ParseUint q = (seq, None) ->
  gtidStep namespace name h u c n [] (d +:+ "-" +:+ s +:+ "-" +:+ q)
  = [gtidMetric namespace name seq h u c n d s].
Proof.
  intros Hd Hs Hq. unfold gtidStep.
  change (d +:+ "-" +:+ s +:+ "-" +:+ q)
    with (String.concat (String "-" "") [d; s; q]).
  rewrite Split_concat; [|done|].
  - by rewrite Hq.
  - repeat constructor; try done. by apply (ParseUint_no_dash q seq).
Qed.

Lemma gtidStep_emits name h u c n (gtid : string) (m : Metric) (ms : list Metric) :
  gtidStep namespace name h u c n [] gtid = m :: ms ->
  exists d s q seq,
    gtid = d +:+ "-" +:+ s +:+ "-" +:+ q /\
    hasByte "-" d = false /\ hasByte "-" s = false /\ ParseUint q = (seq, None).
Proof.
  unfold gtidStep. intros Hstep.
  pose proof (concat_Split gtid "-") as Hjoin.
  pose proof (Split_pieces gtid "-") as Hfree.
  destruct (Split gtid "-") as [|d [|s [|q [|]]]]; try done.
  destruct (ParseUint q) as [seq [err|]] eqn:Hq; [done|].
  exists d, s, q, seq. inversion Hfree as [|? ? Hd Hfree']; subst.
  inversion Hfree' as [|? ? Hs _]; subst. done.
Qed.

(** C7: the entries of a comma-separated list are read one after the
    other, each on its own; an entry [<domain>-<server>-<sequence>] with
    a decimal 64-bit sequence number gives exactly one gauge with the
    domain and the server as labels and the sequence number as value; any
    other entry gives nothing. So ["5-1-100,6-2-200"] gives two metrics
    and ["5-1,6-2-200"] gives the one of its second entry. *)
Theorem C7_gtid_entries_one_metric_each name h u c n ch :
  (forall entries : list string,
     Forall (fun entry => hasByte "," entry = false) entries ->
     parseMariaDBGtid namespace ch name (String.concat "," entries) h u c n
     = ch ++ (entries ≫= gtidStep namespace name h u c n [])) /\
  (forall (d s q : string) (seq : Z),
     hasByte "-" d = false -> hasByte "-" s = false -> ParseUint q = (seq, None) ->
     exists m,
       gtidStep namespace name h u c n [] (d +:+ "-" +:+ s +:+ "-" +:+ q) = [m] /\
       label m "domain_id" = Some d /\ label m "server_id" = Some s /\
       value m = float64_of_uint64 seq /\ valueType m = GaugeValue) /\
  (forall entry : string,
     ~ (exists d s q seq,
          entry = d +:+ "-" +:+ s +:+ "-" +:+ q /\
          hasByte "-" d = false /\ hasByte "-" s = false /\
          ParseUint q = (seq, None)) ->
     gtidStep namespace name h u c n [] entry = []) /\
  parseMariaDBGtid namespace ch name "5-1-100,6-2-200" h u c n
  = ch ++ [gtidMetric namespace name 100 h u c n "5" "1";
           gtidMetric namespace name 200 h u c n "6" "2"] /\
  parseMariaDBGtid namespace ch name "5-1,6-2-200" h u c n
  = ch ++ [gtidMetric namespace name 200 h u c n "6" "2"] /\
  value (gtidMetric namespace name 100 h u c n "5" "1") = 100%float.
Proof.
  refine (conj _ (conj _ (conj _ (conj _ (conj _ _))))).
  - intros entries Hfree. unfold parseMariaDBGtid. case_bool_decide as Hvalue.
    + destruct entries as [|entry [|entry' entries]]; [by rewrite app_nil_r| |].
      * simpl in Hvalue. subst entry. by rewrite app_nil_r.
      * exfalso. simpl in Hvalue. destruct entry; discriminate.
    + rewrite Split_concat; [apply gtid_loop_bind| |done].
      by intros ->.
  - intros d s q seq Hd Hs Hq. eexists. split; [by apply gtidStep_well_formed|].
    by repeat split.
  - intros entry Hnot.
    destruct (gtidStep namespace name h u c n [] entry) as [|m ms] eqn:Hstep; [done|].
    exfalso. apply Hnot. by apply (gtidStep_emits name h u c n entry m ms).
  - unfold parseMariaDBGtid. rewrite bool_decide_eq_false_2 by done.
    by rewrite gtid_loop_bind.
  - unfold parseMariaDBGtid. rewrite bool_decide_eq_false_2 by done.
    by rewrite gtid_loop_bind.
  - reflexivity.
Qed.
End Gtid.

Section GtidExamples.
Import Go Collector.

Lemma C7_gtid_entries_one_metric_each_witness :
  parseMariaDBGtid "mysql" [] "Gtid_IO_Pos" "0-1-7,x,0-2-9" "db1" "" "" ""
  = [] ++ (["0-1-7"; "x"; "0-2-9"] ≫= gtidStep "mysql" "Gtid_IO_Pos" "db1" "" "" "" []) /\
  (exists m,
     gtidStep "mysql" "Gtid_IO_Pos" "db1" "" "" "" [] "0-1-7" = [m] /\
     label m "domain_id" = Some "0" /\ label m "server_id" = Some "1" /\
     value m = float64_of_uint64 7 /\ valueType m = GaugeValue) /\
  gtidStep "mysql" "Gtid_IO_Pos" "db1" "" "" "" [] "5-1" = [].
Proof.
  pose proof (C7_gtid_entries_one_metric_each "mysql" "Gtid_IO_Pos" "db1" "" "" "" [])
    as (Hlist & Hgood & Hbad & _).
  refine (conj _ (conj _ _)).
  - apply (Hlist ["0-1-7"; "x"; "0-2-9"]). repeat constructor.
  - apply (Hgood "0" "1" "7" 7%Z); reflexivity.
  - apply Hbad. intros (d & s & q & seq & Hentry & Hd & Hs & Hq).
    assert (Hsplit : Split "5-1" "-" = [d; s; q]).
    { rewrite Hentry.
      change (d +:+ "-" +:+ s +:+ "-" +:+ q)
        with (String.concat (String "-" "") [d; s; q]).
      apply Split_concat; [done|].
      repeat constructor; try done. by apply (ParseUint_no_dash q seq). }
    discriminate Hsplit.
Defined.
End GtidExamples.

(** ** Dialect search ([Scrape], the two loops over statements and suffixes) *)

Section Dialect.
Import Go Collector.
Variable namespace : string.
Variable parseStatus : string -> float64 * bool.

(** A statement that succeeds as it stands ends the search. *)
Lemma queryLoop_plain_success (db : DB) query queries st rows :
  db (sent st) query = inr rows ->
  queryLoop db (query :: queries) st = mkResolve (sent st ++ [query]) (Some (inr rows)).
Proof.
  intros Hdb. cbn [queryLoop suffixLoop last]. unfold QueryContext at 1.
  cbn [last]. rewrite Hdb. unfold QueryContext. by rewrite ?Hdb.
Qed.

(** A suffix that succeeds ends the loop over the suffixes ... *)
Lemma suffixLoop_success (db : DB) query suffix suffixes st rows :
  db (sent st) (query +:+ suffix) = inr rows ->
  suffixLoop db query (suffix :: suffixes) st
  = mkResolve (sent st ++ [query +:+ suffix]) (Some (inr rows)).
Proof.
  intros Hdb. cbn [queryLoop suffixLoop last]. unfold QueryContext at 1.
  cbn [last]. rewrite Hdb. unfold QueryContext. by rewrite ?Hdb.
Qed.

(** ... but not the loop over the statements: after a statement that
    failed, the next statement is sent whatever its suffixes gave. *)
Lemma queryLoop_failed_statement (db : DB) query queries st err :
  db (sent st) query = inl err ->
  queryLoop db (query :: queries) st
  = queryLoop db queries
      (suffixLoop db query slaveStatusQuerySuffixes (QueryContext db query st)).
Proof.
  intros Hdb. cbn [queryLoop suffixLoop last]. unfold QueryContext at 1.
  cbn [last]. rewrite Hdb. unfold QueryContext. by rewrite ?Hdb.
Qed.

(** Every statement the search sends is one of the declared ones, and
    they are sent in the declared order. *)
Lemma suffixLoop_sent (db : DB) query suffixes st :
  exists attempts,
    sent (suffixLoop db query suffixes st) = sent st ++ attempts /\
    attempts `sublist_of` ((fun suffix => query +:+ suffix) <$> suffixes).
Proof.
  revert st. induction suffixes as [|suffix suffixes IH]; intros st.
  - exists []. by rewrite app_nil_r.
  - cbn [suffixLoop]. rewrite fmap_cons.
    destruct (IH (QueryContext db (query +:+ suffix) st)) as (attempts & Hsent & Hsub).
    destruct (last (QueryContext db (query +:+ suffix) st)) as [[err|rows]|].
    + exists ((query +:+ suffix) :: attempts). split; [|by constructor].
      rewrite Hsent. simpl. by rewrite <- app_assoc.
    + exists [query +:+ suffix]. split; [done|].
      constructor. apply sublist_nil_l.
    + exists ((query +:+ suffix) :: attempts). split; [|by constructor].
      rewrite Hsent. simpl. by rewrite <- app_assoc.
Qed.

Lemma queryLoop_sent (db : DB) queries st :
  exists attempts,
    sent (queryLoop db queries st) = sent st ++ attempts /\
    attempts `sublist_of` declaredOrder queries slaveStatusQuerySuffixes.
Proof.
  revert st. induction queries as [|query queries IH]; intros st.
  - exists []. by rewrite app_nil_r.
  - cbn [queryLoop]. unfold declaredOrder. rewrite bind_cons.
    fold (declaredOrder queries slaveStatusQuerySuffixes).
    set (st1 := QueryContext db query st).
    destruct (suffixLoop_sent db query slaveStatusQuerySuffixes st1)
      as (tried & Htried & Hsub1).
    destruct (IH (suffixLoop db query slaveStatusQuerySuffixes st1))
      as (later & Hlater & Hsub2).
    assert (Hgo : sent (queryLoop db queries
                          (suffixLoop db query slaveStatusQuerySuffixes st1))
                  = sent st ++ (query :: tried ++ later)).
    { rewrite Hlater, Htried. subst st1. simpl. by rewrite <- !app_assoc. }
    assert (Hsub : (query :: tried ++ later) `sublist_of`
              (query :: ((fun suffix => query +:+ suffix) <$> slaveStatusQuerySuffixes))
              ++ declaredOrder queries slaveStatusQuerySuffixes).
    { change ((query :: tried ++ later)) with ((query :: tried) ++ later).
      apply sublist_app; [by constructor|done]. }
    destruct (last st1) as [[err|rows]|] eqn:Hlast.
    + by exists (query :: tried ++ later).
    + exists [query]. split; [done|]. constructor. apply sublist_nil_l.
    + by exists (query :: tried ++ later).
Qed.

(** The search always leaves the answer to some statement behind, so
    the probe never meets a nil [*sql.Rows] without an error. *)
Lemma suffixLoop_last (db : DB) query suffixes st :
  is_Some (last st) -> is_Some (last (suffixLoop db query suffixes st)).
Proof.
  revert st. induction suffixes as [|suffix suffixes IH]; intros st Hst; [done|].
  cbn [suffixLoop].
  destruct (last (QueryContext db (query +:+ suffix) st)) as [[err|rows]|] eqn:Hlast;
    try (apply IH; by rewrite Hlast).
  by rewrite Hlast.
Qed.

Lemma queryLoop_last (db : DB) queries st :
  is_Some (last st) \/ queries <> [] -> is_Some (last (queryLoop db queries st)).
Proof.
  revert st. induction queries as [|query queries IH]; intros st Hst.
  - by destruct Hst.
  - cbn [queryLoop].
    destruct (last (QueryContext db query st)) as [[err|rows]|] eqn:Hlast.
    + apply IH. left. apply suffixLoop_last. by rewrite Hlast.
    + by rewrite Hlast.
    + discriminate Hlast.
Qed.

Lemma Scrape_no_panic (db : DB) (sent0 : list string) (ch : list Metric) :
  (Scrape namespace parseStatus db sent0 ch).1.1 <> Panic.
Proof.
  unfold Scrape.
  pose proof (queryLoop_last db slaveStatusQueries (mkResolve sent0 None)) as Hlast.
  destruct (last (queryLoop db slaveStatusQueries (mkResolve sent0 None)))
    as [[err|rows]|]; [done| |].
  - destruct (Columns rows) as [slaveCols [err|]]; [done|].
    pose proof (rowsLoop_no_panic namespace parseStatus slaveCols (Data rows) ch) as Hrows.
    by destruct (rowsLoop _ _ _ _ _).
  - destruct Hlast as [? Hlast]; [by right|discriminate].
Qed.

(** C1, on a server where only [SHOW SLAVE STATUS NONBLOCKING] answers:
    that statement is the sixth one sent and it succeeds, yet the
    probe goes on to send [SHOW REPLICA STATUS] and its three suffixed
    forms and returns the error of the last of them. *)
Theorem C1_search_goes_on_after_suffix_success :
  lockedDB ["SHOW ALL SLAVES STATUS"; "SHOW ALL SLAVES STATUS NONBLOCKING";
            "SHOW ALL SLAVES STATUS NOLOCK"; "SHOW ALL SLAVES STATUS";
            "SHOW SLAVE STATUS"]
           "SHOW SLAVE STATUS NONBLOCKING" = inr lockedRows /\
  Scrape namespace parseStatus lockedDB [] []
  = (Return (Some "syntax error"), [],
     ["SHOW ALL SLAVES STATUS"; "SHOW ALL SLAVES STATUS NONBLOCKING";
      "SHOW ALL SLAVES STATUS NOLOCK"; "SHOW ALL SLAVES STATUS";
      "SHOW SLAVE STATUS"; "SHOW SLAVE STATUS NONBLOCKING";
      "SHOW REPLICA STATUS"; "SHOW REPLICA STATUS NONBLOCKING";
      "SHOW REPLICA STATUS NOLOCK"; "SHOW REPLICA STATUS"]).
Proof. split; reflexivity. Qed.

(** On a server that knows only the third statement the probe succeeds
    with it, after sending each of the first two statements four times
    over (plain, and once more with the empty suffix). *)
Example queryLoop_replicaDB_statements :
  queryLoop replicaDB slaveStatusQueries (mkResolve [] None)
  = mkResolve
      ["SHOW ALL SLAVES STATUS"; "SHOW ALL SLAVES STATUS NONBLOCKING";
       "SHOW ALL SLAVES STATUS NOLOCK"; "SHOW ALL SLAVES STATUS";
       "SHOW SLAVE STATUS"; "SHOW SLAVE STATUS NONBLOCKING";
       "SHOW SLAVE STATUS NOLOCK"; "SHOW SLAVE STATUS";
       "SHOW REPLICA STATUS"]
      (Some (inr lockedRows)).
Proof. reflexivity. Qed.
End Dialect.

(** * Further properties *)

(** ** Probe selection *)

Section SelectionMore.
Import Collector Exporter.
Implicit Types (scrapers : list Scraper) (collectParams : list string).

Lemma selected_nil_iff collectParams scrapers :
  selected collectParams scrapers = [] <->
  forall s, s ∈ scrapers -> Name s ∉ collectParams.
Proof.
  unfold selected. split.
  - intros Hnil s Hs Hname.
    assert (Hin : s ∈ filter (fun s => Name s ∈ collectParams) scrapers)
      by (by apply list_elem_of_filter).
    rewrite Hnil in Hin. by apply elem_of_nil in Hin.
  - intros Hnone. induction scrapers as [|s ss IH]; [done|].
    rewrite filter_cons_False by (apply Hnone; left).
    apply IH. intros s' Hs'. apply Hnone. by right.
Qed.

(** X1: a probe is selected exactly when it is in the registry list
    and either the inclusion list names it, or the inclusion list names
    no probe of the registry list at all. *)
Theorem X1_filterScrapers_membership scrapers collectParams (s : Scraper) :
  s ∈ filterScrapers scrapers collectParams <->
  s ∈ scrapers /\
  (Name s ∈ collectParams \/ forall s', s' ∈ scrapers -> Name s' ∉ collectParams).
Proof.
  rewrite filterScrapers_unfold. destruct collectParams as [|p ps].
  - split; [|tauto]. intros Hs. split; [done|]. right. intros s' _ Hin.
    by apply elem_of_nil in Hin.
  - destruct (selected (p :: ps) scrapers) as [|k ks] eqn:Hsel.
    + pose proof (proj1 (selected_nil_iff _ _) Hsel) as Hnone.
      split; [|tauto]. intros Hs. split; [done|by right].
    + rewrite <- Hsel. unfold selected. rewrite list_elem_of_filter. split.
      * intros [Hname Hs]. split; [done|by left].
      * intros [Hs [Hname|Hnone]]; [done|].
        apply (proj2 (selected_nil_iff (p :: ps) scrapers)) in Hnone.
        by rewrite Hnone in Hsel.
Qed.

(** X2: only the set of the names in the inclusion list matters, not
    their order and not how often a name is given. *)
Theorem X2_filterScrapers_inclusion_list_as_set scrapers collectParams collectParams' :
  (forall name, name ∈ collectParams <-> name ∈ collectParams') ->
  filterScrapers scrapers collectParams = filterScrapers scrapers collectParams'.
Proof.
  intros Hsame.
  assert (Hsel : selected collectParams scrapers = selected collectParams' scrapers).
  { unfold selected. apply list_filter_iff. intros s. apply Hsame. }
  rewrite !filterScrapers_unfold, Hsel.
  destruct collectParams as [|p ps], collectParams' as [|p' ps']; try done.
  - exfalso. apply (elem_of_nil p'). apply Hsame. left.
  - exfalso. apply (elem_of_nil p). apply Hsame. left.
Qed.

Lemma X2_filterScrapers_inclusion_list_as_set_witness :
  filterScrapers sampleRegistry ["slave_status"; "x"; "slave_status"]
  = filterScrapers sampleRegistry ["x"; "slave_status"].
Proof.
  apply (X2_filterScrapers_inclusion_list_as_set sampleRegistry
           ["slave_status"; "x"; "slave_status"] ["x"; "slave_status"]).
  intros name. rewrite !elem_of_cons, !elem_of_nil. tauto.
Defined.
End SelectionMore.

(** ** Deadline derivation and the handler *)

Section DeadlineMore.
Import Collector Exporter.
Variable ParseFloat : string -> float64 * option string.
Variable c : Config.
Variable timeoutOffset : float64.

(** Every error of the deriver is one of the three kinds, and comes
    with zero seconds. *)
Lemma deriver_error_inv (r : Request) (d : float64) (err : timeoutError) :
  getScrapeTimeoutSeconds ParseFloat r timeoutOffset = (d, Some err) ->
  d = 0%float /\ invalidTimeout ParseFloat timeoutOffset r err.
Proof.
  unfold getScrapeTimeoutSeconds.
  destruct (decide (mapGet (Header r) timeoutHeader = "")) as [Hv|Hv].
  - by rewrite Hv, bool_decide_eq_false_2 by auto.
  - rewrite bool_decide_eq_true_2 by done.
    destruct (ParseFloat (mapGet (Header r) timeoutHeader)) as [t [cause|]] eqn:Hparse.
    + intros [= <- <-]. split; [done|]. by eapply TimeoutUnparsable.
    + destruct (t =? 0)%float eqn:Hz; [done|].
      destruct (t <? 0)%float eqn:Hneg.
      * intros [= <- <-]. split; [done|]. by eapply TimeoutNegative.
      * destruct (t <=? timeoutOffset)%float eqn:Hle; [|done].
        intros [= <- <-]. split; [done|]. eapply TimeoutTooTight; try done.
        destruct (0 <? t)%float eqn:Hpos; [done|].
        by rewrite (float_unordered_leb t timeoutOffset Hz Hneg Hpos) in Hle.
Qed.

(** X3: the deriver reports an error exactly for an unparsable, a
    negative or a too-tight header, and then returns zero seconds. *)
Theorem X3_deriver_errors_exactly_the_invalid_headers (r : Request)
    (err : timeoutError) :
  (getScrapeTimeoutSeconds ParseFloat r timeoutOffset).2 = Some err <->
  invalidTimeout ParseFloat timeoutOffset r err /\
  (getScrapeTimeoutSeconds ParseFloat r timeoutOffset).1 = 0%float.
Proof.
  split.
  - destruct (getScrapeTimeoutSeconds ParseFloat r timeoutOffset) as [d e] eqn:Hget.
    simpl. intros ->. apply deriver_error_inv in Hget as [-> Hinvalid]. done.
  - intros [Hinvalid _]. by rewrite (invalidTimeout_error _ _ _ _ Hinvalid).
Qed.

(** X4: a header that parses to a value the deriver accepts is logged
    nowhere, and a timeout is attached to the context exactly when
    [t - offset] seconds is above zero: its duration is the [int64]
    that [time.Duration] makes of the [float64] product of those
    seconds and [time.Second], the fraction of a nanosecond cut off
    (and left to the implementation when the product does not fit).
    The collector and the request passed on share that context, and
    header and query of the request stay as they were. *)
Theorem X4_handler_attaches_positive_deadline (scrapers : list Scraper)
    (r : Request) (v : string) (t : float64) :
  mapGet (Header r) timeoutHeader = v -> v <> "" -> ParseFloat v = (t, None) ->
  (t =? 0)%float = false -> (t <? 0)%float = false ->
  (t <=? timeoutOffset)%float = false ->
  let served := newHandler ParseFloat c timeoutOffset scrapers r in
  collectorCtx served
  = (if (0 <? t - timeoutOffset)%float
     then WithTimeout (ReqContext r)
            (Go.Duration_of_float64 ((t - timeoutOffset) * second)%float)
     else ReqContext r) /\
  ReqContext (servedRequest served) = collectorCtx served /\
  Header (servedRequest served) = Header r /\
  Query (servedRequest served) = Query r /\
  logged served
  = logged (newHandler ParseFloat c timeoutOffset scrapers (withoutTimeoutHeader r)).
Proof.
  intros Hget Hv Hparse Hz Hneg Hle served. subst served. unfold newHandler.
  rewrite (deriver_parsed ParseFloat r timeoutOffset v t Hget Hv Hparse), Hz, Hneg, Hle.
  rewrite withoutTimeoutHeader_no_deadline.
  simpl (Query (withoutTimeoutHeader r)).
  destruct (FormDSN c _) as [dsn e].
  destruct (0 <? t - timeoutOffset)%float; simpl; by rewrite !app_nil_r.
Qed.
End DeadlineMore.

Section DeadlineMoreExamples.
Import Collector Exporter.

Lemma X4_handler_attaches_positive_deadline_witness :
  collectorCtx (newHandler sampleParseFloat sampleConfig 0.25%float sampleRegistry
                  (sampleRequest "10"))
  = WithTimeout (RequestContext 0) (Some 9750000000%Z).
Proof.
  assert (Hv : "10" <> "") by discriminate.
  exact (proj1 (X4_handler_attaches_positive_deadline sampleParseFloat sampleConfig
                  0.25%float sampleRegistry (sampleRequest "10") "10" 10%float
                  eq_refl Hv eq_refl eq_refl eq_refl eq_refl)).
Defined.

(** The conversion cuts the fraction off, so a timeout below one
    nanosecond is the duration zero; a product of 2 ^ 63 nanoseconds or
    more, as for the header [1e10], is beyond [int64]. *)
Example Duration_of_float64_edges :
  Go.Duration_of_float64 (0x1p-31 * second)%float = Some 0%Z /\
  Go.Duration_of_float64 (1.5 * second)%float = Some 1500000000%Z /\
  Go.Duration_of_float64 ((10000000000 - 0.25) * second)%float = None /\
  Go.Duration_of_float64 (infinity * second)%float = None.
Proof. repeat split. Qed.
End DeadlineMoreExamples.

(** ** Columns by name, on the two slices *)

Section ColumnsMore.
Import Go Collector.
Implicit Types (slaveCols scanArgs : list string) (colName : string).

Lemma columnIndexFrom_first slaveCols colName (idx : Z) :
  (colName ∉ slaveCols -> columnIndexFrom idx slaveCols colName = (-1)%Z) /\
  (colName ∈ slaveCols ->
   exists i : nat,
     columnIndexFrom idx slaveCols colName = (idx + Z.of_nat i)%Z /\
     slaveCols !! i = Some colName /\
     forall j : nat, (j < i)%nat -> slaveCols !! j <> Some colName).
Proof.
  revert idx. induction slaveCols as [|col cols IH]; intros idx.
  - split; [done|]. intros Hin. by apply elem_of_nil in Hin.
  - cbn [columnIndexFrom]. case_bool_decide as Hcol.
    + subst col. split.
      * intros Hnot. exfalso. apply Hnot. left.
      * intros _. exists 0%nat. split; [lia|]. split; [done|]. lia.
    + destruct (IH (idx + 1)%Z) as [IHnot IHin]. split.
      * intros Hnot. apply IHnot. intros Hin. apply Hnot. by right.
      * intros Hin. apply elem_of_cons in Hin as [Heq|Hin]; [by subst|].
        destruct (IHin Hin) as (i & Hidx & Hat & Hfirst).
        exists (S i). split; [rewrite Hidx; lia|]. split; [done|].
        intros [|j] Hj; simpl.
        -- intros [= Heq]. by subst.
        -- apply Hfirst. lia.
Qed.

(** X5: [columnIndex] returns -1 exactly when no column has the name,
    and otherwise the index of the first column of that name. *)
Theorem X5_columnIndex_first_match slaveCols colName :
  (colName ∉ slaveCols -> columnIndex slaveCols colName = (-1)%Z) /\
  (colName ∈ slaveCols ->
   exists i : nat,
     columnIndex slaveCols colName = Z.of_nat i /\
     slaveCols !! i = Some colName /\
     forall j : nat, (j < i)%nat -> slaveCols !! j <> Some colName).
Proof.
  unfold columnIndex. destruct (columnIndexFrom_first slaveCols colName 0) as [Hnot Hin].
  split; [done|]. intros Hcol. destruct (Hin Hcol) as (i & Hidx & Hrest).
  exists i. split; [rewrite Hidx; lia|done].
Qed.

Lemma X5_columnIndex_first_match_witness :
  columnIndex ["Master_Host"; "Master_Port"] "Source_Host" = (-1)%Z /\
  exists i : nat,
    columnIndex ["Channel_Name"; "Master_Host"; "Master_Host"] "Master_Host" = Z.of_nat i /\
    ["Channel_Name"; "Master_Host"; "Master_Host"] !! i = Some "Master_Host" /\
    forall j : nat, (j < i)%nat ->
      ["Channel_Name"; "Master_Host"; "Master_Host"] !! j <> Some "Master_Host".
Proof.
  split.
  - apply (X5_columnIndex_first_match ["Master_Host"; "Master_Port"] "Source_Host").
    apply (bool_decide_unpack (_ ∉ _)). vm_compute. exact I.
  - apply (X5_columnIndex_first_match
             ["Channel_Name"; "Master_Host"; "Master_Host"] "Master_Host").
    apply (bool_decide_unpack (_ ∈ _)). vm_compute. exact I.
Defined.

(** X6: on slices of one length [columnValue] never indexes past the
    end; it gives the value under the first column of the name, and the
    empty string when no column has the name. *)
Theorem X6_columnValue_first_match_or_empty scanArgs slaveCols colName :
  length scanArgs = length slaveCols ->
  exists v,
    columnValue scanArgs slaveCols colName = Some v /\
    (colName ∉ slaveCols -> v = "") /\
    (forall i : nat,
       slaveCols !! i = Some colName ->
       (forall j : nat, (j < i)%nat -> slaveCols !! j <> Some colName) ->
       scanArgs !! i = Some v).
Proof.
  intros Hlen. unfold columnValue, columnIndex.
  destruct (columnIndexFrom_first slaveCols colName 0) as [Hnot Hin].
  destruct (decide (colName ∈ slaveCols)) as [Hcol|Hcol].
  - destruct (Hin Hcol) as (i & Hidx & Hat & Hfirst). rewrite Hidx.
    rewrite bool_decide_eq_false_2 by lia.
    replace (Z.to_nat (0 + Z.of_nat i)) with i by lia.
    destruct (lookup_lt_is_Some_2 scanArgs i) as [v Hv].
    { rewrite Hlen. by apply lookup_lt_Some in Hat. }
    exists v. split; [done|]. split; [done|].
    intros i' Hat' Hfirst'.
    destruct (Nat.lt_trichotomy i i') as [Hlt|[->|Hlt]]; [|done|].
    + by destruct (Hfirst' i Hlt).
    + by destruct (Hfirst i' Hlt).
  - rewrite (Hnot Hcol), bool_decide_eq_true_2 by done.
    exists "". split; [done|]. split; [done|].
    intros i Hat _. exfalso. apply Hcol. by apply list_elem_of_lookup_2 in Hat.
Qed.

Lemma X6_columnValue_first_match_or_empty_witness :
  exists v,
    columnValue ["ch1"; "db1"; "db2"] ["Channel_Name"; "Master_Host"; "Master_Host"]
      "Master_Host" = Some v /\
    ("Master_Host" ∉ ["Channel_Name"; "Master_Host"; "Master_Host"] -> v = "") /\
    (forall i : nat,
       ["Channel_Name"; "Master_Host"; "Master_Host"] !! i = Some "Master_Host" ->
       (forall j : nat, (j < i)%nat ->
          ["Channel_Name"; "Master_Host"; "Master_Host"] !! j <> Some "Master_Host") ->
       ["ch1"; "db1"; "db2"] !! i = Some v).
Proof.
  apply (X6_columnValue_first_match_or_empty ["ch1"; "db1"; "db2"]
           ["Channel_Name"; "Master_Host"; "Master_Host"] "Master_Host").
  reflexivity.
Defined.
End ColumnsMore.

(** ** The search for the statement, in general *)

Section DialectMore.
Import Go Collector.
Variable namespace : string.
Variable parseStatus : string -> float64 * bool.
Implicit Types (db : DB) (st : resolveState).

(** Whatever the outcome, the statements the probe has sent are those
    of its search. *)
Lemma Scrape_sent db (sent0 : list string) (ch : list Metric) :
  (Scrape namespace parseStatus db sent0 ch).2
  = sent (queryLoop db slaveStatusQueries (mkResolve sent0 None)).
Proof.
  unfold Scrape.
  destruct (last (queryLoop db slaveStatusQueries (mkResolve sent0 None)))
    as [[err|rows]|]; try done.
  destruct (Columns rows) as [slaveCols [err|]]; [done|].
  by destruct (rowsLoop _ _ _ _ _).
Qed.

Lemma queryLoop_sent_head db query queries st :
  exists attempts,
    sent (queryLoop db (query :: queries) st) = sent st ++ query :: attempts /\
    (query :: attempts) `sublist_of`
      declaredOrder (query :: queries) slaveStatusQuerySuffixes.
Proof.
  cbn [queryLoop]. unfold declaredOrder. rewrite bind_cons.
  fold (declaredOrder queries slaveStatusQuerySuffixes).
  set (st1 := QueryContext db query st).
  destruct (suffixLoop_sent db query slaveStatusQuerySuffixes st1)
    as (tried & Htried & Hsub1).
  destruct (queryLoop_sent db queries (suffixLoop db query slaveStatusQuerySuffixes st1))
    as (later & Hlater & Hsub2).
  destruct (last st1) as [[err|rows]|] eqn:Hlast.
  - exists (tried ++ later). split.
    + rewrite Hlater, Htried. subst st1. simpl. by rewrite <- !app_assoc.
    + change (query :: tried ++ later) with ((query :: tried) ++ later).
      apply sublist_app; [by constructor|done].
  - exists []. split; [done|]. constructor. apply sublist_nil_l.
  - discriminate Hlast.
Qed.

(** X7: the probe sends between one and twelve statements, the first
    always [SHOW ALL SLAVES STATUS], all of them taken in the declared
    order from the three statements and their suffixed forms; it sends
    nothing else, whatever the server answers. *)
Theorem X7_statements_sent_in_declared_order db (sent0 : list string)
    (ch : list Metric) :
  exists attempts,
    (Scrape namespace parseStatus db sent0 ch).2
    = sent0 ++ "SHOW ALL SLAVES STATUS" :: attempts /\
    ("SHOW ALL SLAVES STATUS" :: attempts) `sublist_of`
      declaredOrder slaveStatusQueries slaveStatusQuerySuffixes /\
    (length attempts < 12)%nat.
Proof.
  rewrite Scrape_sent.
  destruct (queryLoop_sent_head db "SHOW ALL SLAVES STATUS"
              ["SHOW SLAVE STATUS"; "SHOW REPLICA STATUS"] (mkResolve sent0 None))
    as (attempts & Hsent & Hsub).
  exists attempts. split; [exact Hsent|]. split; [exact Hsub|].
  apply sublist_length in Hsub. simpl in Hsub. lia.
Qed.

Lemma QueryContext_answersLast db query st : answersLast db (QueryContext db query st).
Proof. by exists (sent st), query. Qed.

Lemma suffixLoop_answersLast db query suffixes st :
  answersLast db st -> answersLast db (suffixLoop db query suffixes st).
Proof.
  revert st. induction suffixes as [|suffix suffixes IH]; intros st Hst; [done|].
  cbn [suffixLoop].
  pose proof (QueryContext_answersLast db (query +:+ suffix) st) as Hnext.
  destruct (last (QueryContext db (query +:+ suffix) st)) as [[err|rows]|];
    [by apply IH|done|by apply IH].
Qed.

Lemma queryLoop_answersLast db queries st :
  answersLast db st \/ queries <> [] -> answersLast db (queryLoop db queries st).
Proof.
  revert st. induction queries as [|query queries IH]; intros st Hst.
  - by destruct Hst.
  - cbn [queryLoop].
    pose proof (QueryContext_answersLast db query st) as Hnext.
    destruct (last (QueryContext db query st)) as [[err|rows]|]; [|done|].
    + apply IH. left. by apply suffixLoop_answersLast.
    + apply IH. left. by apply suffixLoop_answersLast.
Qed.

(** X8: the outcome of the probe is decided by the answer to the last
    statement it sent: the probe returns that error if it is one, and
    reads those rows if it is a result set, whatever the earlier
    statements were answered. *)
Theorem X8_last_statement_decides db (sent0 : list string) (ch : list Metric) :
  exists hist query,
    (Scrape namespace parseStatus db sent0 ch).2 = hist ++ [query] /\
    match db hist query with
    | inl err => (Scrape namespace parseStatus db sent0 ch).1 = (Return (Some err), ch)
    | inr rows =>
        match Columns rows with
        | (_, Some err) =>
            (Scrape namespace parseStatus db sent0 ch).1 = (Return (Some err), ch)
        | (slaveCols, None) =>
            (Scrape namespace parseStatus db sent0 ch).1
            = rowsLoop namespace parseStatus slaveCols (Data rows) ch
        end
    end.
Proof.
  destruct (queryLoop_answersLast db slaveStatusQueries (mkResolve sent0 None))
    as (hist & query & Hsent & Hlast); [by right|].
  exists hist, query. rewrite Scrape_sent. split; [exact Hsent|].
  unfold Scrape. rewrite Hlast.
  destruct (db hist query) as [err|rows]; [done|].
  destruct (Columns rows) as [slaveCols [err|]]; [done|].
  by destruct (rowsLoop _ _ _ _ _).
Qed.

(** When every statement fails, every form is tried. *)
Lemma suffixLoop_all_fail db query suffixes st :
  (forall hist q, exists err, db hist q = inl err) ->
  sent (suffixLoop db query suffixes st)
  = sent st ++ ((fun suffix => query +:+ suffix) <$> suffixes).
Proof.
  intros Hfail. revert st.
  induction suffixes as [|suffix suffixes IH]; intros st.
  - by rewrite app_nil_r.
  - cbn [suffixLoop]. unfold QueryContext at 1. cbn [last].
    destruct (Hfail (sent st) (query +:+ suffix)) as [err ->].
    rewrite IH. simpl. by rewrite <- app_assoc.
Qed.

Lemma queryLoop_all_fail db queries st :
  (forall hist q, exists err, db hist q = inl err) ->
  sent (queryLoop db queries st)
  = sent st ++ declaredOrder queries slaveStatusQuerySuffixes.
Proof.
  intros Hfail. revert st. induction queries as [|query queries IH]; intros st.
  - by rewrite app_nil_r.
  - cbn [queryLoop]. unfold QueryContext at 1. cbn [last].
    destruct (Hfail (sent st) query) as [err ->].
    rewrite IH, suffixLoop_all_fail by done.
    unfold declaredOrder. rewrite bind_cons. simpl. by rewrite <- !app_assoc.
Qed.

(** X9: on a connection that refuses every statement the probe sends
    all twelve forms in the declared order, emits nothing, and returns
    the error of the last one, the third statement with the empty
    suffix. *)
Theorem X9_all_statements_fail db (sent0 : list string) (ch : list Metric) :
  (forall hist q, exists err, db hist q = inl err) ->
  exists err,
    db (sent0 ++ removelast (declaredOrder slaveStatusQueries slaveStatusQuerySuffixes))
       "SHOW REPLICA STATUS" = inl err /\
    Scrape namespace parseStatus db sent0 ch
    = (Return (Some err), ch,
       sent0 ++ declaredOrder slaveStatusQueries slaveStatusQuerySuffixes).
Proof.
  intros Hfail.
  destruct (queryLoop_answersLast db slaveStatusQueries (mkResolve sent0 None))
    as (hist & query & Hsent & Hlast); [by right|].
  rewrite queryLoop_all_fail in Hsent by done. cbn [sent] in Hsent.
  change (declaredOrder slaveStatusQueries slaveStatusQuerySuffixes)
    with (removelast (declaredOrder slaveStatusQueries slaveStatusQuerySuffixes)
          ++ ["SHOW REPLICA STATUS"]) in Hsent.
  rewrite app_assoc in Hsent. apply app_inj_tail in Hsent as [<- <-].
  destruct (Hfail (sent0 ++ removelast
                     (declaredOrder slaveStatusQueries slaveStatusQuerySuffixes))
                  "SHOW REPLICA STATUS") as [err Herr].
  exists err. split; [exact Herr|].
  unfold Scrape. rewrite Hlast, Herr. by rewrite queryLoop_all_fail.
Qed.
End DialectMore.

Section DialectMoreExamples.
Import Go Collector.

Lemma X9_all_statements_fail_witness :
  exists err,
    refusingDB
      (["earlier statement"]
       ++ removelast (declaredOrder slaveStatusQueries slaveStatusQuerySuffixes))
      "SHOW REPLICA STATUS" = inl err /\
    Scrape "mysql" sampleParseStatus refusingDB ["earlier statement"] []
    = (Return (Some err), [],
       ["earlier statement"]
       ++ declaredOrder slaveStatusQueries slaveStatusQuerySuffixes).
Proof.
  apply (X9_all_statements_fail "mysql" sampleParseStatus refusingDB
           ["earlier statement"] []).
  intros hist q. by exists "access denied".
Defined.
End DialectMoreExamples.

Section DialectPrefix.
Import Go Collector.
Implicit Types (db : DB) (st : resolveState).

Lemma suffixLoop_fail_members db query suffixes st :
  (forall hist suffix, suffix ∈ suffixes -> exists err, db hist (query +:+ suffix) = inl err) ->
  sent (suffixLoop db query suffixes st)
  = sent st ++ ((fun suffix => query +:+ suffix) <$> suffixes).
Proof.
  revert st. induction suffixes as [|suffix suffixes IH]; intros st Hfail.
  - by rewrite app_nil_r.
  - cbn [suffixLoop]. unfold QueryContext at 1. cbn [last].
    destruct (Hfail (sent st) suffix) as [err ->]; [left|].
    rewrite IH by (intros hist s Hs; apply Hfail; by right).
    simpl. by rewrite <- app_assoc.
Qed.

(** Statements that fail in every form are gone through one by one. *)
Lemma queryLoop_fail_prefix db (pre rest : list string) st :
  (forall hist q, q ∈ declaredOrder pre slaveStatusQuerySuffixes ->
                  exists err, db hist q = inl err) ->
  exists st',
    queryLoop db (pre ++ rest) st = queryLoop db rest st' /\
    sent st' = sent st ++ declaredOrder pre slaveStatusQuerySuffixes.
Proof.
  revert st. induction pre as [|query pre IH]; intros st Hfail.
  - exists st. by rewrite app_nil_r.
  - assert (Hsplit : declaredOrder (query :: pre) slaveStatusQuerySuffixes
                     = (query :: ((fun suffix => query +:+ suffix)
                                    <$> slaveStatusQuerySuffixes))
                       ++ declaredOrder pre slaveStatusQuerySuffixes).
    { unfold declaredOrder. by rewrite bind_cons. }
    rewrite <- app_comm_cons. cbn [queryLoop]. unfold QueryContext at 1. cbn [last].
    destruct (Hfail (sent st) query) as [err ->]; [rewrite Hsplit; left|].
    destruct (IH (suffixLoop db query slaveStatusQuerySuffixes (QueryContext db query st)))
      as (st' & Hloop & Hsent).
    { intros hist q Hq. apply Hfail. rewrite Hsplit.
      apply elem_of_app. by right. }
    exists st'. split; [exact Hloop|].
    rewrite Hsent, suffixLoop_fail_members.
    + rewrite Hsplit. simpl. by rewrite <- !app_assoc.
    + intros hist suffix Hs. apply Hfail. rewrite Hsplit.
      apply elem_of_app. left. right.
      by apply (list_elem_of_fmap_2 (fun suffix => query +:+ suffix)).
Qed.

(** X10: when every form of the statements before one fails and that
    one succeeds as it stands, the search ends there: every earlier
    form was sent once, in the declared order, nothing is sent after
    the statement, and its rows are the ones read. *)
Theorem X10_first_plain_success_ends_search db (sent0 pre post : list string)
    (query : string) (rows : Rows) :
  slaveStatusQueries = pre ++ query :: post ->
  (forall hist q, q ∈ declaredOrder pre slaveStatusQuerySuffixes ->
                  exists err, db hist q = inl err) ->
  db (sent0 ++ declaredOrder pre slaveStatusQuerySuffixes) query = inr rows ->
  queryLoop db slaveStatusQueries (mkResolve sent0 None)
  = mkResolve (sent0 ++ declaredOrder pre slaveStatusQuerySuffixes ++ [query])
              (Some (inr rows)).
Proof.
  intros -> Hfail Hrows.
  destruct (queryLoop_fail_prefix db pre (query :: post) (mkResolve sent0 None) Hfail)
    as (st' & -> & Hsent). cbn [sent] in Hsent.
  rewrite (queryLoop_plain_success db query post st' rows) by (by rewrite Hsent).
  by rewrite Hsent, <- app_assoc.
Qed.

Lemma X10_first_plain_success_ends_search_witness :
  queryLoop replicaDB slaveStatusQueries (mkResolve [] None)
  = mkResolve
      ([] ++ declaredOrder ["SHOW ALL SLAVES STATUS"; "SHOW SLAVE STATUS"]
               slaveStatusQuerySuffixes ++ ["SHOW REPLICA STATUS"])
      (Some (inr lockedRows)).
Proof.
  apply (X10_first_plain_success_ends_search replicaDB []
           ["SHOW ALL SLAVES STATUS"; "SHOW SLAVE STATUS"] [] "SHOW REPLICA STATUS").
  - reflexivity.
  - intros hist q Hq. exists "syntax error". unfold replicaDB.
    rewrite bool_decide_eq_false_2; [done|]. intros ->. revert Hq.
    apply (bool_decide_unpack (_ ∉ _)). vm_compute. exact I.
  - reflexivity.
Defined.
End DialectPrefix.

(** ** The rows and the channel *)

Section RowsMore.
Import Go Collector.
Variable namespace : string.
Variable parseStatus : string -> float64 * bool.
Implicit Types (slaveCols : list string) (ch : list Metric).

Lemma rowsLoop_returns slaveCols (data : list scanned) ch :
  exists err emitted,
    rowsLoop namespace parseStatus slaveCols data ch = (Return err, ch ++ emitted).
Proof.
  revert ch. induction data as [|row data IH]; intros ch.
  - exists None, []. by rewrite app_nil_r.
  - cbn [rowsLoop]. destruct row as [values|err]; simpl.
    + case_bool_decide as Hlen.
      * rewrite scrapeRow_no_panic by done.
        destruct (IH (ch ++ rowMetrics namespace parseStatus (zip slaveCols values)))
          as (err & emitted & ->).
        exists err, (rowMetrics namespace parseStatus (zip slaveCols values) ++ emitted).
        by rewrite app_assoc.
      * eexists _, []. by rewrite app_nil_r.
    + exists (Some err), []. by rewrite app_nil_r.
Qed.

(** X11: neither of the two run-time panics the code of the probe
    itself could raise can happen: the search always leaves an error or
    a result set behind (never a nil result set with a nil error), and
    after a successful [Scan] no index into [scanArgs] is past its end.
    So, unless the client library panics while it builds a metric,
    which is outside this statement, the probe returns, with an error
    or without, and the channel then holds what it held before followed
    by what the probe emitted. *)
Theorem X11_Scrape_returns_and_only_appends (db : DB) (sent0 : list string) ch :
  exists err emitted,
    (Scrape namespace parseStatus db sent0 ch).1 = (Return err, ch ++ emitted).
Proof.
  unfold Scrape.
  destruct (queryLoop_last db slaveStatusQueries (mkResolve sent0 None)) as [answer Hlast];
    [by right|].
  rewrite Hlast. destruct answer as [err|rows].
  - exists (Some err), []. by rewrite app_nil_r.
  - destruct (Columns rows) as [slaveCols [err|]].
    + exists (Some err), []. by rewrite app_nil_r.
    + destruct (rowsLoop_returns slaveCols (Data rows) ch) as (err & emitted & ->).
      by exists err, emitted.
Qed.

(** What a row of the right length emits on an empty channel. *)
Lemma scrapeRow_empty_channel slaveCols (values : list string) :
  length values = length slaveCols ->
  default [] (scrapeRow namespace parseStatus values slaveCols [])
  = rowMetrics namespace parseStatus (zip slaveCols values).
Proof. intros Hlen. by rewrite scrapeRow_no_panic. Qed.

(** X12: rows are read in order up to the first one [Scan] fails on:
    the metrics of the rows before it stay on the channel, its error is
    returned and no later row is read; without such a row every row is
    read and no error is returned (none either for a result set with
    no row at all). *)
Theorem X12_rows_until_first_scan_error slaveCols (good : list (list string))
    (err : string) (later : list scanned) ch :
  Forall (fun values => length values = length slaveCols) good ->
  rowsLoop namespace parseStatus slaveCols
    ((RowValues <$> good) ++ RowError err :: later) ch
  = (Return (Some err),
     ch ++ (good ≫= fun values =>
              default [] (scrapeRow namespace parseStatus values slaveCols []))) /\
  rowsLoop namespace parseStatus slaveCols (RowValues <$> good) ch
  = (Return None,
     ch ++ (good ≫= fun values =>
              default [] (scrapeRow namespace parseStatus values slaveCols []))).
Proof.
  intros Hgood. revert ch. induction Hgood as [|values good Hlen Hgood IH]; intros ch.
  - simpl. by rewrite app_nil_r.
  - rewrite fmap_cons, bind_cons, scrapeRow_empty_channel by done.
    rewrite <- app_comm_cons. cbn [rowsLoop Scan].
    rewrite bool_decide_eq_true_2 by done.
    rewrite scrapeRow_no_panic by done.
    destruct (IH (ch ++ rowMetrics namespace parseStatus (zip slaveCols values)))
      as [-> ->].
    by rewrite <- !app_assoc.
Qed.
End RowsMore.

Section RowsMoreExamples.
Import Go Collector.

Lemma X12_rows_until_first_scan_error_witness :
  rowsLoop "mysql" sampleParseStatus ["Master_Host"; "Master_Port"]
    ((RowValues <$> [["db1"; "3306"]]) ++ RowError "connection lost"
       :: [RowValues ["db2"; "3306"]]) []
  = (Return (Some "connection lost"),
     [] ++ ([["db1"; "3306"]] ≫= fun values =>
              default [] (scrapeRow "mysql" sampleParseStatus values
                            ["Master_Host"; "Master_Port"] []))) /\
  rowsLoop "mysql" sampleParseStatus ["Master_Host"; "Master_Port"]
    (RowValues <$> [["db1"; "3306"]]) []
  = (Return None,
     [] ++ ([["db1"; "3306"]] ≫= fun values =>
              default [] (scrapeRow "mysql" sampleParseStatus values
                            ["Master_Host"; "Master_Port"] []))).
Proof.
  apply (X12_rows_until_first_scan_error "mysql" sampleParseStatus
           ["Master_Host"; "Master_Port"] [["db1"; "3306"]] "connection lost"
           [RowValues ["db2"; "3306"]] []).
  repeat constructor.
Defined.
End RowsMoreExamples.

(** ** GTID positions, in general *)

Section GtidMore.
Import Go Collector.
Variable namespace : string.
Implicit Types (name raw h u c n : string) (ch : list Metric).

Lemma parseUintLoop_bound (s : string) (acc seq : Z) :
  (0 <= acc <= maxUint64)%Z ->
  parseUintLoop s acc = (seq, None) -> (0 <= seq <= maxUint64)%Z.
Proof.
  revert acc. induction s as [|b s IH]; intros acc Hacc; simpl.
  - by intros [= <-].
  - destruct (digit10 b) as [d|]; [|done].
    destruct (cutoff <=? acc)%Z; [done|].
    destruct (_ || _) eqn:Hover; [done|].
    apply orb_false_elim in Hover as [_ Hmax].
    apply IH. split; [apply Z.mod_pos_bound; lia|lia].
Qed.

(** A sequence number [ParseUint] accepts fits in 64 bits. *)
Lemma ParseUint_bound (s : string) (seq : Z) :
  ParseUint s = (seq, None) -> (0 <= seq <= maxUint64)%Z.
Proof.
  unfold ParseUint. case_bool_decide; [done|].
  apply parseUintLoop_bound. by vm_compute.
Qed.

(** What an entry emits is nothing, or one gauge of the expected form. *)
Lemma gtidStep_shape name h u c n (gtid : string) :
  gtidStep namespace name h u c n [] gtid = [] \/
  exists d s seq,
    gtidStep namespace name h u c n [] gtid
    = [gtidMetric namespace name seq h u c n d s] /\
    (0 <= seq <= maxUint64)%Z.
Proof.
  unfold gtidStep.
  destruct (Split gtid "-") as [|d [|s [|q [|]]]]; try by left.
  destruct (ParseUint q) as [seq [err|]] eqn:Hq; [by left|].
  right. exists d, s, seq. split; [done|]. by apply (ParseUint_bound q).
Qed.

(** X13: [parseMariaDBGtid] only appends to the channel, at most one
    metric per comma-separated entry and none for the empty string;
    each metric it appends is a gauge named after the lowercased column,
    carries the four labels of the row followed by domain and server,
    and has as value a sequence number that fits in 64 bits. *)
Theorem X13_gtid_metrics_shape_and_count name raw h u c n ch :
  exists emitted,
    parseMariaDBGtid namespace ch name raw h u c n = ch ++ emitted /\
    (length emitted <= length (Split raw ","))%nat /\
    (raw = "" -> emitted = []) /\
    Forall (fun m =>
              valueType m = GaugeValue /\
              fqName (desc m) = BuildFQName namespace slaveStatus (ToLower name) /\
              exists d s seq,
                labelValues m = [h; u; c; n; d; s] /\
                value m = float64_of_uint64 seq /\
                (0 <= seq <= maxUint64)%Z)
           emitted.
Proof.
  exists (gtidOf namespace name raw h u c n).
  split; [apply parseMariaDBGtid_app|].
  rewrite gtidOf_bind. case_bool_decide as Hraw.
  - split; [simpl; lia|]. split; [done|constructor].
  - split; [|split; [done|]].
    + induction (Split raw ",") as [|gtid gtids IH]; [done|].
      rewrite bind_cons, length_app. cbn [length].
      destruct (gtidStep_shape name h u c n gtid) as [Hstep|(d & s & seq & Hstep & _)];
        rewrite Hstep; simpl; lia.
    + apply Forall_bind, Forall_forall. intros gtid _.
      destruct (gtidStep_shape name h u c n gtid)
        as [Hstep|(d & s & seq & Hstep & Hseq)]; simpl; rewrite Hstep; [constructor|].
      repeat constructor. by exists d, s, seq.
Qed.
End GtidMore.

(** ** The probe of [information_schema.tables] *)

Section TableSchemaProperties.
Import Go Collector.
Variable namespace : string.
Variable informationSchema : string.
Implicit Types (db : InfoSchemaDB) (ch : list Metric) (sent : list statement).

Lemma tableRowsLoop_scanned (rows : list tableRow) (later : list (scan tableRow))
    (err : string) ch :
  tableRowsLoop namespace informationSchema (Scanned <$> rows) ch
  = (None, ch ++ (rows ≫= tableMetrics namespace informationSchema)) /\
  tableRowsLoop namespace informationSchema
    ((Scanned <$> rows) ++ ScanFailed err :: later) ch
  = (Some err, ch ++ (rows ≫= tableMetrics namespace informationSchema)).
Proof.
  revert ch. induction rows as [|t rows IH]; intros ch.
  - simpl. by rewrite app_nil_r.
  - rewrite fmap_cons, bind_cons, <- app_comm_cons. cbn [tableRowsLoop].
    destruct (IH (ch ++ tableMetrics namespace informationSchema t)) as [-> ->]. by rewrite <- !app_assoc.
Qed.

(** Whatever the rows, the loop over them sends whole groups of five. *)
Lemma tableRowsLoop_whole_rows (data : list (scan tableRow)) ch :
  exists err (rows : list tableRow),
    tableRowsLoop namespace informationSchema data ch = (err, ch ++ (rows ≫= tableMetrics namespace informationSchema)).
Proof.
  revert ch. induction data as [|[t|err] data IH]; intros ch; cbn [tableRowsLoop].
  - exists None, []. simpl. by rewrite app_nil_r.
  - destruct (IH (ch ++ tableMetrics namespace informationSchema t)) as (err & rows & ->).
    exists err, (t :: rows). by rewrite bind_cons, app_assoc.
  - exists (Some err), []. simpl. by rewrite app_nil_r.
Qed.

Lemma databasesLoop_progress db (dbList : list string) sent ch :
  exists err (rows : list tableRow) (k : nat),
    databasesLoop namespace informationSchema db dbList sent ch
    = (err, ch ++ (rows ≫= tableMetrics namespace informationSchema),
       sent ++ (TableSchemaQuery <$> take k dbList)) /\
    (err = None -> k = length dbList) /\
    (dbList <> [] -> (1 <= k)%nat).
Proof.
  revert sent ch. induction dbList as [|database dbList IH]; intros sent ch;
    cbn [databasesLoop].
  - exists None, [], 0%nat. simpl. by rewrite !app_nil_r.
  - destruct (queryTables db sent database) as [err|data].
    + exists (Some err), [], 1%nat. simpl. rewrite ?take_0, ?app_nil_r.
      split; [done|]. split; [done|lia].
    + destruct (tableRowsLoop_whole_rows data ch) as (err & rows & ->).
      destruct err as [err|].
      * exists (Some err), rows, 1%nat. simpl. rewrite ?take_0.
        split; [done|]. split; [done|lia].
      * destruct (IH (sent ++ [TableSchemaQuery database])
                     (ch ++ (rows ≫= tableMetrics namespace informationSchema)))
          as (err & rows' & k & -> & Hk & _).
        exists err, (rows ++ rows'), (S k). split; [|split].
        -- by rewrite bind_app, <- !app_assoc.
        -- intros Herr. simpl. by rewrite Hk.
        -- lia.
Qed.

Lemma databasesLoop_all_succeed db (dbList : list string)
    (tables : string -> list tableRow) sent ch :
  (forall hist database, database ∈ dbList ->
     queryTables db hist database = inr (Scanned <$> tables database)) ->
  databasesLoop namespace informationSchema db dbList sent ch
  = (None, ch ++ (dbList ≫= fun database => tables database ≫= tableMetrics namespace informationSchema),
     sent ++ (TableSchemaQuery <$> dbList)).
Proof.
  revert sent ch. induction dbList as [|database dbList IH]; intros sent ch Hok.
  - simpl. by rewrite !app_nil_r.
  - cbn [databasesLoop]. rewrite Hok by left.
    rewrite (proj1 (tableRowsLoop_scanned (tables database) [] "" ch)).
    rewrite IH by (intros hist d Hd; apply Hok; by right).
    by rewrite bind_cons, fmap_cons, <- !app_assoc.
Qed.

Lemma tableMetrics_bind_length (rows : list tableRow) :
  length (rows ≫= tableMetrics namespace informationSchema) = (5 * length rows)%nat.
Proof.
  induction rows as [|t rows IH]; [done|].
  rewrite bind_cons, length_app, IH. simpl. lia.
Qed.

(** X14: with a list of databases in the flag and a server that
    answers for each, the probe asks for the tables of each database of
    the list, in the order of the list and without asking for the list
    of databases, and emits five gauges per table (version, rows, and
    the three sizes), tables in the order the server gives them. *)
Theorem X14_tables_of_listed_databases (tableSchemaDatabases : string) db
    (tables : string -> list tableRow) sent ch :
  tableSchemaDatabases <> "*" ->
  (forall hist database, database ∈ Split tableSchemaDatabases "," ->
     queryTables db hist database = inr (Scanned <$> tables database)) ->
  ScrapeTableSchema_Scrape namespace informationSchema tableSchemaDatabases db sent ch
  = (None,
     ch ++ (Split tableSchemaDatabases "," ≫= fun database =>
              tables database ≫= tableMetrics namespace informationSchema),
     sent ++ (TableSchemaQuery <$> Split tableSchemaDatabases ",")) /\
  length (Split tableSchemaDatabases "," ≫= fun database =>
            tables database ≫= tableMetrics namespace informationSchema)
  = (5 * length (Split tableSchemaDatabases "," ≫= tables))%nat.
Proof.
  intros Hflag Hok. split.
  - unfold ScrapeTableSchema_Scrape. rewrite bool_decide_eq_false_2 by done.
    by apply databasesLoop_all_succeed.
  - rewrite <- tableMetrics_bind_length. clear Hok.
    induction (Split tableSchemaDatabases ",") as [|d ds IH]; [done|].
    by rewrite !bind_cons, bind_app, !length_app, IH.
Qed.

(** X15: with the flag [*] the probe first asks for the list of
    databases and then for the tables of each database of the answer,
    in the order of the answer, emitting five gauges per table. *)
Theorem X15_tables_of_all_databases db (dbList : list string)
    (tables : string -> list tableRow) sent ch :
  queryDbList db sent = inr (Scanned <$> dbList) ->
  (forall hist database, database ∈ dbList ->
     queryTables db hist database = inr (Scanned <$> tables database)) ->
  ScrapeTableSchema_Scrape namespace informationSchema "*" db sent ch
  = (None, ch ++ (dbList ≫= fun database => tables database ≫= tableMetrics namespace informationSchema),
     sent ++ DbListQuery :: (TableSchemaQuery <$> dbList)).
Proof.
  intros Hlist Hok. unfold ScrapeTableSchema_Scrape.
  rewrite bool_decide_eq_true_2 by done. rewrite Hlist.
  assert (Hread : forall l acc : list string,
             dbListLoop (Scanned <$> l) acc = inr (acc ++ l)).
  { induction l as [|d ds IH]; intros acc; simpl.
    - by rewrite app_nil_r.
    - by rewrite IH, <- app_assoc. }
  rewrite Hread. simpl app.
  rewrite databasesLoop_all_succeed with (tables := tables) by done.
  by rewrite <- app_assoc.
Qed.

Lemma tableRowsLoop_prefix (data : list (scan tableRow)) ch :
  exists err,
    tableRowsLoop namespace informationSchema data ch
    = (err, ch ++ (scannedPrefix data ≫= tableMetrics namespace informationSchema)).
Proof.
  revert ch. induction data as [|[t|err] data IH]; intros ch; cbn [tableRowsLoop].
  - exists None. simpl. by rewrite app_nil_r.
  - destruct (IH (ch ++ tableMetrics namespace informationSchema t)) as (err & ->).
    exists err. cbn [scannedPrefix]. by rewrite bind_cons, app_assoc.
  - exists (Some err). simpl. by rewrite app_nil_r.
Qed.

Lemma databasesLoop_exact db (dbList : list string) sent ch :
  exists err (k : nat),
    databasesLoop namespace informationSchema db dbList sent ch
    = (err,
       ch ++ (rowsOf db (take k dbList) sent ≫= tableMetrics namespace informationSchema),
       sent ++ (TableSchemaQuery <$> take k dbList)).
Proof.
  revert sent ch. induction dbList as [|database dbList IH]; intros sent ch;
    cbn [databasesLoop].
  - exists None, 0%nat. simpl. by rewrite !app_nil_r.
  - destruct (queryTables db sent database) as [err|data] eqn:Hanswer.
    + exists (Some err), 1%nat. simpl. rewrite ?take_0. simpl.
      by rewrite Hanswer, !app_nil_r.
    + destruct (tableRowsLoop_prefix data ch) as (err & ->).
      destruct err as [err|].
      * exists (Some err), 1%nat. simpl. rewrite ?take_0. simpl.
        by rewrite Hanswer, !app_nil_r.
      * destruct (IH (sent ++ [TableSchemaQuery database])
                     (ch ++ (scannedPrefix data
                               ≫= tableMetrics namespace informationSchema)))
          as (err & k & ->).
        exists err, (S k). simpl. rewrite Hanswer. simpl.
        by rewrite bind_app, <- !app_assoc.
Qed.

(** X16: whatever the server answers, and also when the probe
    returns an error, what it has appended to the channel is exactly,
    for each table query it sent and in their order, the five gauges of
    each row of the answer to that query up to the first row that could
    not be scanned (nothing for a query that failed); nothing else is
    appended, and no row is sent twice. *)
Theorem X16_table_probe_appends_rows_answered (tableSchemaDatabases : string)
    db sent ch :
  exists (err : option string) (queried : list string),
    let start := if bool_decide (tableSchemaDatabases = "*")
                 then sent ++ [DbListQuery] else sent in
    ScrapeTableSchema_Scrape namespace informationSchema tableSchemaDatabases db sent ch
    = (err,
       ch ++ (rowsOf db queried start ≫= tableMetrics namespace informationSchema),
       start ++ (TableSchemaQuery <$> queried)) /\
    length (rowsOf db queried start ≫= tableMetrics namespace informationSchema)
    = (5 * length (rowsOf db queried start))%nat.
Proof.
  unfold ScrapeTableSchema_Scrape. case_bool_decide as Hflag.
  - destruct (queryDbList db sent) as [err|dbListRows].
    + exists (Some err), []. simpl. by rewrite !app_nil_r.
    + destruct (dbListLoop dbListRows []) as [err|dbList].
      * exists (Some err), []. simpl. by rewrite !app_nil_r.
      * destruct (databasesLoop_exact db dbList (sent ++ [DbListQuery]) ch)
          as (err & k & ->).
        exists err, (take k dbList). split; [done|apply tableMetrics_bind_length].
  - destruct (databasesLoop_exact db (Split tableSchemaDatabases ",") sent ch)
      as (err & k & ->).
    exists err, (take k (Split tableSchemaDatabases ",")).
    split; [done|apply tableMetrics_bind_length].
Qed.

(** X17: with a list of databases in the flag the probe never asks
    for the list of databases: whatever the server answers, it has
    asked for the tables of the first few databases of the flag, in
    their order and each once, and of all of them when it returns no
    error. An empty flag is the list of the one database with the empty
    name. *)
Theorem X17_listed_databases_asked_in_order (tableSchemaDatabases : string) db sent ch :
  tableSchemaDatabases <> "*" ->
  exists k : nat,
    (ScrapeTableSchema_Scrape namespace informationSchema
       tableSchemaDatabases db sent ch).2
    = sent ++ (TableSchemaQuery <$> take k (Split tableSchemaDatabases ",")) /\
    (1 <= k)%nat /\
    ((ScrapeTableSchema_Scrape namespace informationSchema
        tableSchemaDatabases db sent ch).1.1 = None ->
     k = length (Split tableSchemaDatabases ",")) /\
    (tableSchemaDatabases = "" ->
     (ScrapeTableSchema_Scrape namespace informationSchema
        tableSchemaDatabases db sent ch).2 = sent ++ [TableSchemaQuery ""]).
Proof.
  intros Hflag. unfold ScrapeTableSchema_Scrape. rewrite bool_decide_eq_false_2 by done.
  destruct (databasesLoop_progress db (Split tableSchemaDatabases ",") sent ch)
    as (err & rows & k & Hrun & Hk & Hone).
  specialize (Hone (Split_nonempty tableSchemaDatabases ",")).
  exists k. rewrite Hrun. cbn [fst snd].
  split; [done|]. split; [done|]. split; [exact Hk|].
  intros ->. destruct k as [|k]; [lia|]. simpl. by rewrite take_nil.
Qed.

Lemma databasesLoop_succeeding_prefix db (pre rest : list string)
    (tables : string -> list tableRow) sent ch :
  (forall hist database, database ∈ pre ->
     queryTables db hist database = inr (Scanned <$> tables database)) ->
  databasesLoop namespace informationSchema db (pre ++ rest) sent ch
  = databasesLoop namespace informationSchema db rest
      (sent ++ (TableSchemaQuery <$> pre))
      (ch ++ (pre ≫= fun database =>
                tables database ≫= tableMetrics namespace informationSchema)).
Proof.
  revert sent ch. induction pre as [|database pre IH]; intros sent ch Hok.
  - simpl. by rewrite !app_nil_r.
  - rewrite <- app_comm_cons. cbn [databasesLoop]. rewrite Hok by left.
    rewrite (proj1 (tableRowsLoop_scanned (tables database) [] "" ch)).
    rewrite IH by (intros hist d Hd; apply Hok; by right).
    by rewrite bind_cons, fmap_cons, <- !app_assoc.
Qed.

(** X18: with the flag [*], when the list of databases cannot be had
    (the statement fails, or a row of its answer cannot be scanned) the
    probe returns that error at once: it asks for no table, not even of
    the databases it had read before the row that failed, and emits
    nothing. *)
Theorem X18_failed_database_list_stops_probe db (err : string) sent ch :
  (queryDbList db sent = inl err \/
   exists (dbList : list string) (later : list (scan string)),
     queryDbList db sent = inr ((Scanned <$> dbList) ++ ScanFailed err :: later)) ->
  ScrapeTableSchema_Scrape namespace informationSchema "*" db sent ch
  = (Some err, ch, sent ++ [DbListQuery]).
Proof.
  unfold ScrapeTableSchema_Scrape. rewrite bool_decide_eq_true_2 by done.
  intros [->|(dbList & later & ->)]; [done|].
  assert (Hread : forall l acc : list string,
             dbListLoop ((Scanned <$> l) ++ ScanFailed err :: later) acc = inl err).
  { induction l as [|d ds IH]; intros acc; simpl; [done|apply IH]. }
  by rewrite Hread.
Qed.

Lemma dbListLoop_scanned (dbList acc : list string) :
  dbListLoop (Scanned <$> dbList) acc = inr (acc ++ dbList).
Proof.
  revert acc. induction dbList as [|d ds IH]; intros acc; simpl.
  - by rewrite app_nil_r.
  - by rewrite IH, <- app_assoc.
Qed.

(** X19: in either mode (the databases [dbList] taken from the flag
    with nothing sent for it, or read from the answer to the list query
    under the flag [*]), when the tables of one database cannot be had
    (the statement fails, or one of its rows cannot be scanned) the
    probe returns that error and asks for no later database; the gauges
    of the databases before it, and of the rows of that database
    scanned before the failure, stay on the channel. *)
Theorem X19_failed_table_query_keeps_earlier_metrics (tableSchemaDatabases : string) db
    (dbList pre post : list string) (database : string)
    (tables : string -> list tableRow) (rows : list tableRow) (err : string)
    (sent start : list statement) ch :
  (tableSchemaDatabases <> "*" /\
   dbList = Split tableSchemaDatabases "," /\ start = sent \/
   tableSchemaDatabases = "*" /\
   queryDbList db sent = inr (Scanned <$> dbList) /\ start = sent ++ [DbListQuery]) ->
  dbList = pre ++ database :: post ->
  (forall hist d, d ∈ pre -> queryTables db hist d = inr (Scanned <$> tables d)) ->
  (queryTables db (start ++ (TableSchemaQuery <$> pre)) database = inl err /\ rows = [] \/
   exists later : list (scan tableRow),
     queryTables db (start ++ (TableSchemaQuery <$> pre)) database
     = inr ((Scanned <$> rows) ++ ScanFailed err :: later)) ->
  ScrapeTableSchema_Scrape namespace informationSchema tableSchemaDatabases db sent ch
  = (Some err,
     ch ++ (pre ≫= fun d => tables d ≫= tableMetrics namespace informationSchema)
        ++ (rows ≫= tableMetrics namespace informationSchema),
     start ++ (TableSchemaQuery <$> pre ++ [database])).
Proof.
  intros Hmode Hsplit Hok Hfail.
  assert (Hloop : ScrapeTableSchema_Scrape namespace informationSchema
                    tableSchemaDatabases db sent ch
                  = databasesLoop namespace informationSchema db dbList start ch).
  { unfold ScrapeTableSchema_Scrape.
    destruct Hmode as [(Hflag & -> & ->)|(-> & Hlist & ->)].
    - by rewrite bool_decide_eq_false_2.
    - rewrite bool_decide_eq_true_2 by done. by rewrite Hlist, dbListLoop_scanned. }
  rewrite Hloop, Hsplit.
  rewrite (databasesLoop_succeeding_prefix db pre (database :: post) tables) by done.
  cbn [databasesLoop]. rewrite fmap_app. simpl.
  destruct Hfail as [[-> ->]|(later & ->)].
  - simpl. by rewrite !app_nil_r, <- app_assoc.
  - rewrite (proj2 (tableRowsLoop_scanned rows later err _)).
    by rewrite <- !app_assoc.
Qed.
End TableSchemaProperties.

Section TableSchemaExamples.
Import Go Collector.

Lemma sampleInfoSchemaDB_tables (hist : list statement) (database : string) :
  queryTables sampleInfoSchemaDB hist database = inr (Scanned <$> sampleTables database).
Proof.
  unfold sampleInfoSchemaDB, sampleTables. simpl. by repeat case_bool_decide.
Qed.

Lemma X14_tables_of_listed_databases_witness :
  ScrapeTableSchema_Scrape "mysql" "info_schema" "blog,shop" sampleInfoSchemaDB [] []
  = (None,
     [] ++ (Split "blog,shop" "," ≫= fun database =>
              sampleTables database ≫= tableMetrics "mysql" "info_schema"),
     [] ++ (TableSchemaQuery <$> Split "blog,shop" ",")) /\
  length (Split "blog,shop" "," ≫= fun database =>
            sampleTables database ≫= tableMetrics "mysql" "info_schema")
  = (5 * length (Split "blog,shop" "," ≫= sampleTables))%nat.
Proof.
  apply (X14_tables_of_listed_databases "mysql" "info_schema" "blog,shop"
           sampleInfoSchemaDB sampleTables [] []).
  - discriminate.
  - intros hist database _. apply sampleInfoSchemaDB_tables.
Defined.

Lemma X15_tables_of_all_databases_witness :
  ScrapeTableSchema_Scrape "mysql" "info_schema" "*" sampleInfoSchemaDB [] []
  = (None,
     [] ++ (["shop"; "blog"] ≫= fun database =>
              sampleTables database ≫= tableMetrics "mysql" "info_schema"),
     [] ++ DbListQuery :: (TableSchemaQuery <$> ["shop"; "blog"])).
Proof.
  apply (X15_tables_of_all_databases "mysql" "info_schema" sampleInfoSchemaDB
           ["shop"; "blog"] sampleTables [] []).
  - reflexivity.
  - intros hist database _. apply sampleInfoSchemaDB_tables.
Defined.

Lemma X17_listed_databases_asked_in_order_witness :
  exists k : nat,
    (ScrapeTableSchema_Scrape "mysql" "info_schema" "shop,blog,wiki"
       brokenInfoSchemaDB [] []).2
    = [] ++ (TableSchemaQuery <$> take k (Split "shop,blog,wiki" ",")) /\
    (1 <= k)%nat /\
    ((ScrapeTableSchema_Scrape "mysql" "info_schema" "shop,blog,wiki"
        brokenInfoSchemaDB [] []).1.1 = None ->
     k = length (Split "shop,blog,wiki" ",")) /\
    ("shop,blog,wiki" = "" ->
     (ScrapeTableSchema_Scrape "mysql" "info_schema" "shop,blog,wiki"
        brokenInfoSchemaDB [] []).2 = [] ++ [TableSchemaQuery ""]).
Proof.
  apply (X17_listed_databases_asked_in_order "mysql" "info_schema" "shop,blog,wiki"
           brokenInfoSchemaDB [] []).
  discriminate.
Defined.

Lemma X18_failed_database_list_stops_probe_witness :
  ScrapeTableSchema_Scrape "mysql" "info_schema" "*" brokenInfoSchemaDB [] []
  = (Some "bad row", [], [] ++ [DbListQuery]).
Proof.
  apply (X18_failed_database_list_stops_probe "mysql" "info_schema"
           brokenInfoSchemaDB "bad row" [] []).
  right. by exists ["shop"], [Scanned "blog"].
Defined.

Lemma X19_failed_table_query_keeps_earlier_metrics_witness :
  ScrapeTableSchema_Scrape "mysql" "info_schema" "*" lossyInfoSchemaDB [] []
  = (Some "connection lost",
     [] ++ (["shop"] ≫= fun d => sampleTables d ≫= tableMetrics "mysql" "info_schema")
        ++ ([sampleTable "blog" "posts" 7] ≫= tableMetrics "mysql" "info_schema"),
     ([] ++ [DbListQuery]) ++ (TableSchemaQuery <$> ["shop"] ++ ["blog"])).
Proof.
  apply (X19_failed_table_query_keeps_earlier_metrics "mysql" "info_schema"
           "*" lossyInfoSchemaDB ["shop"; "blog"; "wiki"] ["shop"] ["wiki"] "blog"
           sampleTables [sampleTable "blog" "posts" 7] "connection lost"
           [] ([] ++ [DbListQuery]) []).
  - right. split; [reflexivity|]. split; reflexivity.
  - reflexivity.
  - intros hist d Hd. apply list_elem_of_singleton in Hd as ->. reflexivity.
  - right. by exists [Scanned (sampleTable "blog" "tags" 3)].
Defined.
End TableSchemaExamples.

(** ** The channel and connection labels of a row *)

Section RowLabelsMore.
Import Go Collector.
Variable namespace : string.
Variable parseStatus : string -> float64 * bool.
Implicit Types (row : list (string * string)) (ch : list Metric).

Lemma genericOf_channel_labels h u c n column :
  Forall (fun m => label m "channel_name" = Some c /\ label m "connection_name" = Some n)
         (genericOf namespace parseStatus h u c n column).
Proof.
  unfold genericOf. destruct (parseStatus column.2) as [number [|]]; [|constructor].
  repeat constructor.
Qed.

Lemma gtidOf_channel_labels name raw h u c n :
  Forall (fun m => label m "channel_name" = Some c /\ label m "connection_name" = Some n)
         (gtidOf namespace name raw h u c n).
Proof.
  rewrite gtidOf_bind. case_bool_decide; [constructor|].
  apply Forall_bind, Forall_forall. intros gtid _. unfold gtidStep. simpl.
  destruct (Split gtid "-") as [|d [|s [|q [|]]]]; try constructor.
  destruct (ParseUint q) as [sequence_num [err|]]; repeat constructor.
Qed.

(** X20: every metric a row emits carries as [channel_name] the value
    of the row's [Channel_Name] column and as [connection_name] the
    value of its [Connection_name] column, each the empty string when
    the row has no column of exactly that name. *)
Theorem X20_channel_and_connection_labels row ch :
  exists emitted,
    scrapeRow namespace parseStatus row.*2 row.*1 ch = Some (ch ++ emitted) /\
    Forall (fun m =>
              label m "channel_name" = Some (default "" (rowMap row !! "Channel_Name")) /\
              label m "connection_name"
              = Some (default "" (rowMap row !! "Connection_name")))
           emitted.
Proof.
  exists (rowMetrics namespace parseStatus row). split; [apply scrapeRow_spec|].
  unfold rowMetrics. rewrite !Forall_app. split; [|split].
  - apply Forall_bind, Forall_forall. intros column _. apply genericOf_channel_labels.
  - apply gtidOf_channel_labels.
  - apply gtidOf_channel_labels.
Qed.
End RowLabelsMore.
